(** * AdvancedCounter: a shallow embedding of the counter widget

    The widget lives in [AdvancedCounter.tsx]: three [useState] cells
    ([count], [history], [step]), an auto-save effect keyed on [count], a
    keyboard-listener effect keyed on [step], and four event handlers.

    Layout of this file:
    - [JS]     the fragment of the JavaScript runtime the component calls
               ([parseInt], [Number.prototype.toString], [isNaN], [Math.max],
               [+]/[-] on numbers, [Object.is], [localStorage],
               [addEventListener]/[removeEventListener]);
    - [React]  the fragment of React the component relies on (lazy
               [useState], updater queues, dependency arrays);
    - [Widget] the component itself, then the state machine obtained by
               running it one DOM event at a time;
    - the properties.

    Numbers.  Every number the component ever holds is an integer-valued
    double, a zero of either sign, an infinity or [NaN]: [parseInt] returns
    nothing else, and sums and differences of such values are such values.
    A finite non-zero number is modelled by its mathematical value in [Z];
    every operation that can leave the 53 bits of a double rounds its exact
    result to the nearest double, ties to even, and overflows to an
    infinity.

    Strings.  A string is a [String.string], one [ascii] per code unit, so
    the model covers code units below 256. *)

From Stdlib Require Import ZArith Decimal DecimalString DecimalZ Ascii String.
From stdpp Require Import base option list gmap strings.

#[local] Open Scope Z_scope.
#[local] Open Scope string_scope.
#[local] Open Scope list_scope.

(* ===================================================================== *)
(** ** The JavaScript runtime *)
(* ===================================================================== *)

Module JS.

(** The [number] type, restricted to what the component can hold: an
    integer-valued double ([Num z], [z] its mathematical value), negative
    zero, an infinity, or [NaN]. *)
Inductive number : Type :=
| Num (z : Z)
| NegZero
| Infinity (negative : bool)
| NaN.

#[global] Instance number_eq_dec : EqDecision number.
Proof. solve_decision. Defined.

(** The double nearest to a positive integer [m], ties to the even
    significand; [None] when it overflows.  A double has 53 significant
    bits and its exponent stops short of 1024. *)
Definition roundPos (m : Z) : option Z :=
  let shift := Z.log2 m + 1 - 53 in
  if (shift <=? 0)%Z then Some m
  else
    let unit := 2 ^ shift in
    let q := m / unit in
    let r := m mod unit in
    let half := unit / 2 in
    let q' := if ((half <? r) || ((r =? half) && Z.odd q))%Z
              then q + 1 else q in
    let v := q' * unit in
    if (2 ^ 1024 <=? v)%Z then None else Some v.

(** The number for the integer of magnitude [m >= 0] with the given sign:
    a zero keeps its sign, an overflow gives the infinity of that sign. *)
Definition ofInteger (negative : bool) (m : Z) : number :=
  if (m =? 0)%Z then (if negative then NegZero else Num 0)
  else match roundPos m with
       | Some v => Num (if negative then - v else v)
       | None => Infinity negative
       end.

(** The number for an exact integer result; an exact zero is [+0]. *)
Definition ofZ (z : Z) : number :=
  if (z =? 0)%Z then Num 0 else ofInteger (z <? 0)%Z (Z.abs z).

(** [isNaN(x)] *)
Definition isNaN (x : number) : bool :=
  match x with NaN => true | _ => false end.

(** Unary minus. *)
Definition neg (x : number) : number :=
  match x with
  | Num z => if (z =? 0)%Z then NegZero else Num (- z)
  | NegZero => Num 0
  | Infinity b => Infinity (negb b)
  | NaN => NaN
  end.

(** [x + y] on numbers: the exact sum, rounded; opposite infinities give
    [NaN]; a sum of zeros is [-0] only when both are. *)
Definition add (x y : number) : number :=
  match x, y with
  | NaN, _ => NaN
  | _, NaN => NaN
  | Infinity a, Infinity b => if Bool.eqb a b then Infinity a else NaN
  | Infinity a, _ => Infinity a
  | _, Infinity b => Infinity b
  | NegZero, NegZero => NegZero
  | NegZero, Num b => Num b
  | Num a, NegZero => Num a
  | Num a, Num b => ofZ (a + b)
  end.

(** [x - y] on numbers, which the language defines as [x + (-y)]. *)
Definition sub (x y : number) : number := add x (neg y).

(** [x < y] on numbers; the two zeros compare equal, [NaN] compares
    false. *)
Definition lessThan (x y : number) : bool :=
  match x, y with
  | NaN, _ => false
  | _, NaN => false
  | Infinity true, Infinity true => false
  | Infinity true, _ => true
  | _, Infinity true => false
  | Infinity false, _ => false
  | _, Infinity false => true
  | Num a, Num b => (a <? b)%Z
  | Num a, NegZero => (a <? 0)%Z
  | NegZero, Num b => (0 <? b)%Z
  | NegZero, NegZero => false
  end.

(** [x <= y] on numbers. *)
Definition lessEq (x y : number) : bool :=
  negb (isNaN x) && negb (isNaN y) && negb (lessThan y x).

(** [Math.max(x, y)]: [NaN] as soon as one argument is; [+0] is larger
    than [-0]. *)
Definition Math_max (x y : number) : number :=
  match x, y with
  | NaN, _ => NaN
  | _, NaN => NaN
  | _, _ =>
      if lessThan x y then y
      else if lessThan y x then x
      else match x with NegZero => y | _ => x end
  end.

(** [Number.isSafeInteger(x)] *)
Definition isSafeInteger (x : number) : bool :=
  match x with
  | Num z => (Z.abs z <? 2 ^ 53)%Z
  | NegZero => true
  | _ => false
  end.

(** [Object.is(x, y)] on numbers; unlike [===] it equates [NaN] with
    itself and tells [+0] from [-0].  React compares dependency arrays
    with it. *)
Definition Object_is (x y : number) : bool := bool_decide (x = y).

(** [x === y] on strings. *)
Definition strictEq (x y : string) : bool := String.eqb x y.

(** *** [parseInt(s, 10)] *)

(** White space and line terminators among the code units below 256:
    TAB, LF, VT, FF, CR, SP and NBSP. *)
Definition isWhiteSpace (c : ascii) : bool :=
  let n := N_of_ascii c in
  ((n =? 9) || (n =? 10) || (n =? 11) || (n =? 12) || (n =? 13)
   || (n =? 32) || (n =? 160))%N.

(** Step 2 of [parseInt]: drop leading white space. *)
Fixpoint trimStart (s : string) : string :=
  match s with
  | String c r => if isWhiteSpace c then trimStart r else s
  | EmptyString => EmptyString
  end.

(** A radix-10 digit, as the constructor of [Decimal.uint] it denotes. *)
Definition digitOf (c : ascii) : option (uint -> uint) :=
  match c with
  | "0" => Some D0 | "1" => Some D1 | "2" => Some D2 | "3" => Some D3
  | "4" => Some D4 | "5" => Some D5 | "6" => Some D6 | "7" => Some D7
  | "8" => Some D8 | "9" => Some D9
  | _ => None
  end%char.

Definition isDigit (c : ascii) : bool :=
  match digitOf c with Some _ => true | None => false end.

(** The longest prefix of [s] made of radix-10 digits. *)
Fixpoint digitPrefix (s : string) : uint :=
  match s with
  | String c r =>
      match digitOf c with
      | Some d => d (digitPrefix r)
      | None => Nil
      end
  | EmptyString => Nil
  end.

(** Steps 3 to 5: an optional sign. *)
Definition splitSign (s : string) : Z * string :=
  match s with
  | String c r =>
      if (c =? "-")%char then (-1, r)
      else if (c =? "+")%char then (1, r)
      else (1, s)
  | EmptyString => (1, s)
  end.

(** [parseInt(s, 10)].  With an explicit radix of 10 no [0x] prefix is
    stripped.  An empty digit prefix gives [NaN]; otherwise the result is
    the number for the signed integer the digits write, so [-0] for a
    negative zero, a rounded value beyond 53 bits and an infinity on
    overflow. *)
Definition parseInt (s : string) : number :=
  let '(sign, body) := splitSign (trimStart s) in
  match digitPrefix body with
  | Nil => NaN
  | ds => ofInteger (sign <? 0)%Z (Z.of_uint ds)
  end.

(** Does [s] start with a radix-10 digit? *)
Definition startsWithDigit (s : string) : bool :=
  match s with
  | String c _ => isDigit c
  | EmptyString => false
  end.

(** Does [s] begin with an integer as [parseInt] reads one: optional white
    space, an optional sign, then at least one digit? *)
Definition hasLeadingInteger (s : string) : bool :=
  startsWithDigit (snd (splitSign (trimStart s))).

(** *** [Number.prototype.toString()] *)

(** The decimal writing of an integer. *)
Definition decimal (m : Z) : string := NilEmpty.string_of_int (Z.to_int m).

(** Is [x] the number the integer [v] rounds to? *)
Definition roundsTo (v x : Z) : bool := bool_decide (ofZ v = Num x).

(** The shortest decimal that still denotes the double [x > 0]: the
    integer with the fewest significant digits that rounds to [x], the
    closest to [x] when two have as few, the one with the even last digit
    when both are as close.  [p] counts the low digits tried as zeros, from
    all but the first down to none. *)
Fixpoint shortestFrom (x : Z) (p : nat) : Z :=
  let g := 10 ^ Z.of_nat p in
  let lo := x / g * g in
  let hi := lo + g in
  match roundsTo lo x, roundsTo hi x with
  | true, true =>
      if (x - lo <? hi - x)%Z then lo
      else if (hi - x <? x - lo)%Z then hi
      else if Z.even (x / g) then lo else hi
  | true, false => lo
  | false, true => hi
  | false, false =>
      match p with
      | O => x
      | S p' => shortestFrom x p'
      end
  end.

Definition shortest (x : Z) : Z :=
  shortestFrom x (String.length (decimal x) - 1).

(** Drop the trailing zeros of a digit string. *)
Fixpoint stripZeros (s : string) : string :=
  match s with
  | EmptyString => EmptyString
  | String c r =>
      match stripZeros r with
      | EmptyString =>
          if (c =? "0")%char then EmptyString else String c EmptyString
      | r' => String c r'
      end
  end.

(** The text of a positive integer [v]: all its digits below [10^21],
    exponent notation from there on. *)
Definition formatPositive (v : Z) : string :=
  let ds := decimal v in
  if (v <? 10 ^ 21)%Z then ds
  else
    let e := decimal (Z.of_nat (String.length ds) - 1) in
    match stripZeros ds with
    | String d EmptyString => String d ("e+" ++ e)%string
    | String d rest => String d ("." ++ rest ++ "e+" ++ e)%string
    | EmptyString => ds
    end.

Definition toString (x : number) : string :=
  match x with
  | Num z =>
      if (z =? 0)%Z then "0"
      else if (z <? 0)%Z then ("-" ++ formatPositive (shortest (- z)))%string
      else formatPositive (shortest z)
  | NegZero => "0"
  | Infinity false => "Infinity"
  | Infinity true => "-Infinity"
  | NaN => "NaN"
  end.

(** *** [localStorage] *)

(** [localStorage.getItem(k)]; [None] stands for [null]. *)
Definition getItem (ls : gmap string string) (k : string) : option string :=
  ls !! k.

(** [localStorage.setItem(k, v)] *)
Definition setItem (ls : gmap string string) (k v : string)
  : gmap string string :=
  <[k := v]> ls.

End JS.

Import JS.

(* ===================================================================== *)
(** ** The fragment of React the component relies on *)
(* ===================================================================== *)

Module React.

(** What a state setter accepts: a value, or an updater that receives the
    latest state.  An updater may itself call other setters while it runs;
    [E] is the type of the calls it makes ([Empty_set] for a pure one). *)
Inductive SetStateAction (E A : Type) : Type :=
| Value (v : A)
| Updater (f : A -> A * list E).
Arguments Value {E A} v.
Arguments Updater {E A} f.

(** React's [basicStateReducer]: apply one queued action to the latest
    state, returning the new state and the setter calls made meanwhile. *)
Definition basicStateReducer {E A} (prev : A) (a : SetStateAction E A)
  : A * list E :=
  match a with
  | Value v => (v, [])
  | Updater f => f prev
  end.

(** [useState(init)] with a lazy initializer: the initializer runs when the
    hook has no cell yet, that is on the first render only.  The boolean
    tells whether it ran. *)
Definition useState {A} (cell : option A) (init : unit -> A) : A * bool :=
  match cell with
  | Some v => (v, false)
  | None => (init tt, true)
  end.

(** [areHookInputsEqual] on a one-element dependency array of numbers. *)
Definition areHookInputsEqual (next prev : number) : bool :=
  Object_is next prev.

End React.

Import React.

(** A function value with an identity, as [addEventListener] and
    [removeEventListener] compare listeners by reference: [ref] is the
    allocation that created the closure, [env] what it captured. *)
Record closure (E : Type) : Type := Closure { ref : nat; env : E }.
Arguments Closure {E} ref env.
Arguments ref {E} c.
Arguments env {E} c.

Definition sameRef {E} (a b : closure E) : bool := Nat.eqb (ref a) (ref b).

(** [target.addEventListener(type, l)]: appended unless the very same
    function is already registered. *)
Definition addEventListener {E} (l : closure E) (ls : list (closure E))
  : list (closure E) :=
  if existsb (sameRef l) ls then ls else ls ++ [l].

(** [target.removeEventListener(type, l)] *)
Definition removeEventListener {E} (l : closure E) (ls : list (closure E))
  : list (closure E) :=
  List.filter (fun x => negb (sameRef l x)) ls.

(* ===================================================================== *)
(** ** The component *)
(* ===================================================================== *)

Module Widget.

(** The three state variables of one render. *)
Record Hooks : Type := mkHooks {
  count : number;
  history : list number;
  step : number
}.

(** The cells behind the three [useState] calls; [None] before the first
    render. *)
Record Cells : Type := mkCells {
  countCell : option number;
  historyCell : option (list number);
  stepCell : option number
}.

Definition noCells : Cells := mkCells None None None.
Definition cellsOf (h : Hooks) : Cells :=
  mkCells (Some (count h)) (Some (history h)) (Some (step h)).

Definition STORAGE_KEY : string := "advancedCounterValue".

(** Lines 28-35: the lazy initializer of [count]. *)
Definition initCount (ls : gmap string string) : number :=
  match getItem ls STORAGE_KEY with
  | Some savedCount =>
      let parsedCount := parseInt savedCount in
      parsedCount
  | None => Num 0
  end.

(** Lines 43-50: the lazy initializer of [history]. *)
Definition initHistory (ls : gmap string string) : list number :=
  match getItem ls STORAGE_KEY with
  | Some savedCount =>
      let parsedCount := parseInt savedCount in
      [parsedCount]
  | None => [Num 0]
  end.

(** Calls to [setHistory]: values or pure updaters. *)
Definition HistoryAction : Type := SetStateAction Empty_set (list number).
(** Calls to [setCount]: values, or updaters that call [setHistory]. *)
Definition CountAction : Type := SetStateAction HistoryAction number.
(** Calls to [setStep]. *)
Definition StepAction : Type := SetStateAction Empty_set number.

(** One setter call made by an event handler. *)
Inductive Dispatch : Type :=
| setCount (a : CountAction)
| setHistory (a : HistoryAction)
| setStep (a : StepAction).

(** Lines 129-133 (and, with the same text, lines 93-97): the updater of
    an increment.  It appends to [history] from inside. *)
Definition incrementUpdater (step : number) : CountAction :=
  Updater (fun prevCount =>
    let newCount := add prevCount step in
    (newCount, [Updater (fun prevHistory => (prevHistory ++ [newCount], []))])).

(** Lines 143-147 (and lines 100-104): the updater of a decrement. *)
Definition decrementUpdater (step : number) : CountAction :=
  Updater (fun prevCount =>
    let newCount := sub prevCount step in
    (newCount, [Updater (fun prevHistory => (prevHistory ++ [newCount], []))])).

(** Lines 128-134. *)
Definition handleIncrement (step : number) : list Dispatch :=
  [setCount (incrementUpdater step)].

(** Lines 142-148. *)
Definition handleDecrement (step : number) : list Dispatch :=
  [setCount (decrementUpdater step)].

(** Lines 157-160. *)
Definition handleReset : list Dispatch :=
  [setCount (Value (Num 0)); setHistory (Value [Num 0])].

(** Lines 169-175; [value] is [event.target.value]. *)
Definition handleStepChange (value : string) : list Dispatch :=
  let newStep := parseInt value in
  if negb (isNaN newStep)
  then [setStep (Value (Math_max (Num 1) newStep))]
  else [].

(** Lines 90-106: the listener built by the keyboard effect; [step] is the
    value it closes over, [key] is [event.key]. *)
Definition handleKeyPress (step : number) (key : string) : list Dispatch :=
  if strictEq key "ArrowUp" then [setCount (incrementUpdater step)]
  else if strictEq key "ArrowDown" then [setCount (decrementUpdater step)]
  else [].

(** Processing of one setter call against the latest state.  The
    [setHistory] calls an updater of [count] makes are applied to the
    latest [history] in the order they were made. *)
Definition applyHistory (hist : list number) (a : HistoryAction)
  : list number :=
  fst (basicStateReducer hist a).

Definition dispatch (h : Hooks) (d : Dispatch) : Hooks :=
  match d with
  | setCount a =>
      let '(c, calls) := basicStateReducer (count h) a in
      mkHooks c (fold_left applyHistory calls (history h)) (step h)
  | setHistory a => mkHooks (count h) (applyHistory (history h) a) (step h)
  | setStep a => mkHooks (count h) (history h) (fst (basicStateReducer (step h) a))
  end.

(** All the setter calls of one batch, in the order they were made. *)
Definition flush (ds : list Dispatch) (h : Hooks) : Hooks :=
  fold_left dispatch ds h.

(** Lines 28-54: the three [useState] calls of one render.  The second
    component tells which lazy initializers ran. *)
Definition AdvancedCounter (ls : gmap string string) (cells : Cells)
  : Hooks * (bool * bool) :=
  let '(count, ranCount) := useState (countCell cells) (fun _ => initCount ls) in
  let '(history, ranHistory) :=
    useState (historyCell cells) (fun _ => initHistory ls) in
  let '(step, _) := useState (stepCell cells) (fun _ => Num 1) in
  (mkHooks count history step, (ranCount, ranHistory)).

End Widget.

Import Widget.

(* ===================================================================== *)
(** ** The mounted component, one DOM event at a time *)
(* ===================================================================== *)

Module Runtime.

(** Everything the component reads or writes: its own state, the storage,
    the [keydown] listeners of [document], and the cleanup the keyboard
    effect returned last.  [setItemCalls] and [initRuns] are counters kept
    for the properties: how often [localStorage.setItem] was called, and how
    often each of the two lazy initializers ran. *)
Record World : Type := mkWorld {
  hooks : Hooks;
  localStorage : gmap string string;
  listeners : list (closure number);
  cleanup : option (closure number);
  nextRef : nat;
  setItemCalls : nat;
  initRuns : nat * nat
}.

(** The DOM events the component reacts to. *)
Inductive Button : Type := Decrement | Increment | Reset.

Inductive Event : Type :=
| Click (b : Button)
| Change (value : string)
| KeyDown (key : string).

(** Lines 65-70: the body of the auto-save effect. *)
Definition saveEffect (count : number) (w : World) : World :=
  mkWorld (hooks w)
          (setItem (localStorage w) STORAGE_KEY (toString count))
          (listeners w) (cleanup w) (nextRef w)
          (S (setItemCalls w)) (initRuns w).

(** Lines 88-115: the body of the keyboard effect.  It allocates a fresh
    [handleKeyPress] closing over [step], registers it, and returns the
    cleanup that removes that same function. *)
Definition keyEffect (step : number) (w : World) : World :=
  let handleKeyPress := Closure (nextRef w) step in
  mkWorld (hooks w) (localStorage w)
          (addEventListener handleKeyPress (listeners w))
          (Some handleKeyPress) (S (nextRef w))
          (setItemCalls w) (initRuns w).

(** Lines 113-115: running the cleanup the keyboard effect returned. *)
Definition runCleanup (w : World) : World :=
  match cleanup w with
  | Some handleKeyPress =>
      mkWorld (hooks w) (localStorage w)
              (removeEventListener handleKeyPress (listeners w))
              None (nextRef w) (setItemCalls w) (initRuns w)
  | None => w
  end.

(** Does an effect with dependency array [[next]] run?  Always on mount
    ([prev = None]); afterwards only when the dependency changed. *)
Definition depsChanged (prev : option number) (next : number) : bool :=
  match prev with
  | None => true
  | Some p => negb (areHookInputsEqual next p)
  end.

Definition withHooks (h : Hooks) (w : World) : World :=
  mkWorld h (localStorage w) (listeners w) (cleanup w) (nextRef w)
          (setItemCalls w) (initRuns w).

(** Commit of a render: the cleanups of the effects that will re-run, then
    the effects, in source order.  The auto-save effect has dependencies
    [[count]] (line 70), the keyboard effect [[step]] (line 116). *)
Definition commit (prev : option Hooks) (next : Hooks) (w : World) : World :=
  let runSave := depsChanged (count <$> prev) (count next) in
  let runKey := depsChanged (step <$> prev) (step next) in
  let w0 := withHooks next w in
  let w1 := if runKey then runCleanup w0 else w0 in
  let w2 := if runSave then saveEffect (count next) w1 else w1 in
  if runKey then keyEffect (step next) w2 else w2.

Definition countRuns (ran : bool * bool) (n : nat * nat) : nat * nat :=
  let n1 := if fst ran then (S (fst n), snd n) else n in
  if snd ran then (fst n1, S (snd n1)) else n1.

(** One render followed by its commit. *)
Definition render (prev : option Hooks) (cells : Cells) (w : World) : World :=
  let '(next, ran) := AdvancedCounter (localStorage w) cells in
  commit prev next
    (mkWorld (hooks w) (localStorage w) (listeners w) (cleanup w)
             (nextRef w) (setItemCalls w) (countRuns ran (initRuns w))).

(** Mounting the component over a given storage: the first render. *)
Definition mount (ls : gmap string string) : World :=
  render None noCells
    (mkWorld (mkHooks NaN [] NaN) ls [] None 0 0 (0, 0))%nat.

(** The setter calls one event causes.  A click or an edit runs the
    handler of the last render, which closes over that render's [step]; a
    key press runs every [keydown] listener registered on [document], each
    with the [step] it closed over. *)
Definition handlers (w : World) (e : Event) : list Dispatch :=
  match e with
  | Click Increment => handleIncrement (step (hooks w))
  | Click Decrement => handleDecrement (step (hooks w))
  | Click Reset => handleReset
  | Change value => handleStepChange value
  | KeyDown key =>
      flat_map (fun l => handleKeyPress (env l) key) (listeners w)
  end.

(** One event, start to finish: the handlers run, React applies the queued
    setter calls, re-renders and commits. *)
Definition dispatchEvent (w : World) (e : Event) : World :=
  let pending := flush (handlers w e) (hooks w) in
  render (Some (hooks w)) (cellsOf pending) w.

Definition run (w : World) (es : list Event) : World :=
  fold_left dispatchEvent es w.

(** Unmounting runs the pending cleanup. *)
Definition unmount (w : World) : World := runCleanup w.

End Runtime.

Import Runtime.

(* ===================================================================== *)
(** ** The transitions as the specification words them *)
(* ===================================================================== *)

Module Spec.

(** [applyDelta(signedStep)]: compute [newCount = currentCount +
    signedStep], append [newCount] to [history], set [count = newCount]. *)
Definition applyDelta (signedStep : number) (h : Hooks) : Hooks :=
  let newCount := add (count h) signedStep in
  mkHooks newCount (history h ++ [newCount]) (step h).

(** [reset()]: [count = 0] and [history = [0]]. *)
Definition reset (h : Hooks) : Hooks :=
  mkHooks (Num 0) [Num 0] (step h).

(** [setStep(n)] for an integer [n]: [step = max(1, n)]. *)
Definition setStep (n : Z) (h : Hooks) : Hooks :=
  mkHooks (count h) (history h) (Num (Z.max 1 n)).

(** An increment or a decrement, however it was triggered. *)
Inductive Transition : Type := Inc | Dec.

Definition delta (step : number) (t : Transition) : number :=
  match t with Inc => step | Dec => neg step end.

Definition transition (h : Hooks) (t : Transition) : Hooks :=
  applyDelta (delta (step h) t) h.

End Spec.

Import Spec.

(** How a transition was triggered: a button, or an arrow key. *)
Inductive Trigger : Type := ByButton | ByKey.

Definition eventOf (t : Transition * Trigger) : Event :=
  match t with
  | (Inc, ByButton) => Click Increment
  | (Dec, ByButton) => Click Decrement
  | (Inc, ByKey) => KeyDown "ArrowUp"
  | (Dec, ByKey) => KeyDown "ArrowDown"
  end.

(** The handler a button transition calls, for a render whose [step] is
    [s]. *)
Definition handlerOf (s : number) (t : Transition) : list Dispatch :=
  match t with
  | Inc => handleIncrement s
  | Dec => handleDecrement s
  end.

(* ===================================================================== *)
(** ** What holds of every world the mounted component can be in *)
(* ===================================================================== *)

(** Exactly one listener is registered, it is the one the pending cleanup
    removes, and it closes over the current [step]. *)
Definition oneListener (w : World) : Prop :=
  exists l, listeners w = [l] /\ cleanup w = Some l
            /\ env l = step (hooks w).

Definition stepPositive (w : World) : Prop :=
  lessEq (Num 1) (step (hooks w)) = true.

Definition mirrored (w : World) : Prop :=
  localStorage w !! STORAGE_KEY = Some (toString (count (hooks w))).

Definition historyEndsAtCount (h : Hooks) : Prop :=
  last (history h) = Some (count h).

Record Inv (w : World) : Prop := mkInv {
  inv_listener : oneListener w;
  inv_step : stepPositive w;
  inv_mirror : mirrored w;
  inv_history : historyEndsAtCount (hooks w);
  inv_inits : initRuns w = (1, 1)%nat
}.

(** The value [count] had at the most recent mount or reset, followed along
    a run: [a] is that value before the events [es]. *)
Fixpoint anchor (w : World) (a : number) (es : list Event) : number :=
  match es with
  | [] => a
  | e :: es' =>
      let w' := dispatchEvent w e in
      anchor w' (match e with
                 | Click Reset => count (hooks w')
                 | _ => a
                 end) es'
  end.

(** The two initialization paths diverge on a storage [ls]: one of [count]
    and the seed of [history] is [NaN] while the other is a number. *)
Definition initPathsDiverge (ls : gmap string string) : Prop :=
  exists x, initHistory ls = [x]
            /\ isNaN (initCount ls) <> isNaN x.

(* ===================================================================== *)
(** ** What the component displays *)
(* ===================================================================== *)

Module View.

(** [xs.join(sep)] on an array of numbers: the elements' [toString()]
    with [sep] between them, the empty string for an empty array. *)
Fixpoint join (sep : string) (xs : list number) : string :=
  match xs with
  | [] => ""
  | x :: rest =>
      match rest with
      | [] => toString x
      | _ => (toString x ++ sep ++ join sep rest)%string
      end
  end.

(** The text of the elements whose content depends on the state; a number
    in JSX is displayed as its [toString()]. *)
Record Rendered : Type := mkRendered {
  counterDisplay : string;
  stepInput : string;
  historyList : string;
  historyCount : string
}.

(** Lines 177-238, the parts that read the state: the heading of line 183,
    the [value] of the step field (line 206), the history paragraph (lines
    218-222) and the change counter (line 223). *)
Definition present (h : Hooks) : Rendered :=
  mkRendered
    ("Current Count: " ++ toString (count h))%string
    (toString (step h))
    (if (0 <? length (history h))%nat
     then ("Previous counts: " ++ join ", " (history h))%string
     else "No history yet")
    ("Total changes: "
       ++ toString (Num (Z.of_nat (length (history h)) - 1)))%string.

End View.

Import View.

(* ===================================================================== *)
(** ** Measures along a run *)
(* ===================================================================== *)

(** Does the event append to [history]: an increment or decrement button,
    or an arrow key? *)
Definition isTransition (e : Event) : bool :=
  match e with
  | Click Increment | Click Decrement => true
  | Click Reset => false
  | Change _ => false
  | KeyDown key => strictEq key "ArrowUp" || strictEq key "ArrowDown"
  end.

Definition isReset (e : Event) : bool :=
  match e with
  | Click Reset => true
  | _ => false
  end.

(** The number of increments and decrements since the most recent mount or
    reset, followed along a run: [n] is that number before [es]. *)
Fixpoint changesSince (n : nat) (es : list Event) : nat :=
  match es with
  | [] => n
  | e :: es' =>
      changesSince (if isReset e then 0%nat
                    else if isTransition e then S n else n) es'
  end.

(** Increments minus decrements. *)
Definition weight (t : Transition) : Z :=
  match t with Inc => 1 | Dec => -1 end.

Definition net (ts : list Transition) : Z :=
  fold_right (fun t acc => weight t + acc) 0 ts.

(** Unless [count] is [NaN], no entry of [history] is. *)
Definition numericHistory (h : Hooks) : Prop :=
  Forall (fun x => isNaN (count h) || negb (isNaN x) = true) (history h).

(** *** The strings [parseInt] reads, by character code *)

(** The white space of the language below code 256: TAB, LF, VT, FF, CR,
    SP, NBSP. *)
Definition isStrWhiteSpaceChar (c : ascii) : bool :=
  existsb (N.eqb (N_of_ascii c)) [9; 10; 11; 12; 13; 32; 160]%N.

(** The decimal digits, codes 48 to 57. *)
Definition isDecimalDigit (c : ascii) : bool :=
  ((48 <=? N_of_ascii c) && (N_of_ascii c <=? 57))%N.

Definition beginsWithDecimalDigit (s : string) : bool :=
  match s with
  | String c _ => isDecimalDigit c
  | EmptyString => false
  end.

Fixpoint skipWhiteSpace (s : string) : string :=
  match s with
  | String c r => if isStrWhiteSpaceChar c then skipWhiteSpace r else s
  | EmptyString => EmptyString
  end.

(** A string begins with an integer when, after its leading white space,
    comes a decimal digit, or a [-] (code 45) or [+] (code 43) followed at
    once by a decimal digit. *)
Definition beginsWithInteger (s : string) : bool :=
  match skipWhiteSpace s with
  | String c r =>
      if ((N_of_ascii c =? 45) || (N_of_ascii c =? 43))%N
      then beginsWithDecimalDigit r
      else isDecimalDigit c
  | EmptyString => false
  end.

(** The number a run of decimal digits [d] denotes under a sign: exact up
    to 53 bits, the nearest double beyond. *)
Definition signedValue (negative : bool) (d : uint) : number :=
  let v := Z.of_uint d in
  if negative
  then (if (v =? 0)%Z then NegZero
        else if (v <? 2 ^ 53)%Z then Num (- v)
        else ofInteger true v)
  else (if (v <? 2 ^ 53)%Z then Num v else ofInteger false v).

(* ===================================================================== *)
(** ** Facts about the runtime fragment *)
(* ===================================================================== *)

Section Numbers.

Lemma two_53 : 2 ^ 53 = 9007199254740992.
Proof. reflexivity. Qed.

Lemma sub_add_neg (x y : number) : sub x y = add x (neg y).
Proof. reflexivity. Qed.

Lemma Object_is_true (x y : number) : Object_is x y = true <-> x = y.
Proof. unfold Object_is. apply bool_decide_eq_true. Qed.

Lemma Object_is_false (x y : number) : Object_is x y = false <-> x <> y.
Proof. unfold Object_is. apply bool_decide_eq_false. Qed.

Lemma add_NaN_l (y : number) : add NaN y = NaN.
Proof. reflexivity. Qed.

Lemma add_not_NaN (x y : number) : isNaN (add x y) = false -> isNaN x = false.
Proof. destruct x; [reflexivity .. | discriminate]. Qed.

(** Where rounding is exact and where it is not: below [2^53] a positive
    integer is its own double, from [2^53] on the double is at least
    [2^53]. *)
Lemma roundPos_bounds (m r : Z) :
  0 < m -> roundPos m = Some r ->
  (m < 2 ^ 53 /\ r = m) \/ (2 ^ 53 <= m /\ 2 ^ 53 <= r).
Proof.
  intros Hm. unfold roundPos. cbv zeta.
  destruct (Z.leb_spec (Z.log2 m + 1 - 53) 0) as [Hs|Hs].
  - intros [= <-]. left. split; [| reflexivity].
    apply Z.log2_lt_pow2; lia.
  - assert (2 ^ 53 <= m) as Hbig by (apply Z.log2_le_pow2; lia).
    set (sh := Z.log2 m + 1 - 53) in *. set (u := 2 ^ sh).
    assert (2 <= u) as Hu.
    { change 2 with (2 ^ 1) at 1. apply Z.pow_le_mono_r; lia. }
    assert (2 ^ 52 * u <= m) as Hlow.
    { unfold u. rewrite <- Z.pow_add_r by lia.
      replace (52 + sh) with (Z.log2 m) by (unfold sh; lia).
      apply Z.log2_spec. exact Hm. }
    assert (2 ^ 52 <= m / u) as Hq.
    { apply Z.div_le_lower_bound; lia. }
    set (q := m / u) in *.
    match goal with
    | |- context [if ?b then q + 1 else q] =>
        set (q' := if b then q + 1 else q);
        assert (q <= q') as Hq' by (unfold q'; destruct b; lia)
    end.
    destruct (2 ^ 1024 <=? q' * u)%Z; [discriminate |].
    intros [= <-]. right. split; [exact Hbig |].
    change (2 ^ 53) with (2 ^ 52 * 2). change (2 ^ 52) with 4503599627370496 in *.
    nia.
Qed.

Lemma roundPos_safe (m : Z) : 0 < m < 2 ^ 53 -> roundPos m = Some m.
Proof.
  intros [Hm Hlt]. unfold roundPos. cbv zeta.
  destruct (Z.leb_spec (Z.log2 m + 1 - 53) 0) as [Hs|Hs]; [reflexivity |].
  assert (Z.log2 m < 53) by (apply Z.log2_lt_pow2; lia). lia.
Qed.

Lemma ofInteger_safe (negative : bool) (m : Z) :
  0 < m < 2 ^ 53 ->
  ofInteger negative m = Num (if negative then - m else m).
Proof.
  intros Hm. unfold ofInteger. rewrite (roundPos_safe m Hm).
  destruct (Z.eqb_spec m 0); [lia | reflexivity].
Qed.

(** An exact integer result below [2^53] in magnitude is not rounded. *)
Lemma ofZ_safe (z : Z) : Z.abs z < 2 ^ 53 -> ofZ z = Num z.
Proof.
  intros Hz. unfold ofZ. destruct (Z.eqb_spec z 0) as [->|Hne]; [reflexivity |].
  rewrite ofInteger_safe by lia.
  destruct (Z.ltb_spec z 0); f_equal; lia.
Qed.

Lemma add_safe (a b : Z) :
  Z.abs (a + b) < 2 ^ 53 -> add (Num a) (Num b) = Num (a + b).
Proof. intros H. simpl. now apply ofZ_safe. Qed.

(** Only a safe integer itself rounds to it. *)
Lemma ofZ_rounds_safe (v x : Z) :
  0 < x < 2 ^ 53 -> ofZ v = Num x -> v = x.
Proof.
  intros Hx. unfold ofZ.
  destruct (Z.eqb_spec v 0) as [->|Hne]; [intros [= E]; lia |].
  unfold ofInteger. destruct (Z.eqb_spec (Z.abs v) 0); [lia |].
  destruct (roundPos (Z.abs v)) as [r|] eqn:E; [| discriminate].
  apply roundPos_bounds in E; [| lia].
  destruct (Z.ltb_spec v 0); intros [= Heq]; lia.
Qed.

Lemma isNaN_ofInteger (negative : bool) (m : Z) :
  isNaN (ofInteger negative m) = false.
Proof.
  unfold ofInteger. destruct (m =? 0)%Z; [now destruct negative |].
  now destruct (roundPos m).
Qed.

Lemma Math_max_1_Num (n : Z) : Math_max (Num 1) (Num n) = Num (Z.max 1 n).
Proof.
  unfold Math_max, lessThan.
  destruct (Z.ltb_spec 1 n), (Z.ltb_spec n 1); f_equal; lia.
Qed.

(** [Math.max(1, x)] is at least 1 unless [x] is [NaN]. *)
Lemma lessEq_1_Math_max (x : number) :
  isNaN x = false -> lessEq (Num 1) (Math_max (Num 1) x) = true.
Proof.
  destruct x as [n| |[|]|]; intros H; try discriminate H; try reflexivity.
  rewrite Math_max_1_Num. unfold lessEq, lessThan. simpl.
  destruct (Z.ltb_spec (Z.max 1 n) 1); [lia | reflexivity].
Qed.

(** What [1 <= x] leaves of the numbers: the integers from 1 on and
    [+Infinity]. *)
Lemma lessEq_1_cases (x : number) :
  lessEq (Num 1) x = true ->
  match x with
  | Num n => 1 <= n
  | Infinity false => True
  | _ => False
  end.
Proof.
  destruct x as [n| |[|]|]; try discriminate; [| trivial].
  unfold lessEq, lessThan. simpl.
  destruct (Z.ltb_spec n 1); [discriminate | lia].
Qed.

Lemma lessEq_1_Num (s : Z) : lessEq (Num 1) (Num s) = true -> 1 <= s.
Proof.
  unfold lessEq, lessThan. simpl. destruct (Z.ltb_spec s 1); [discriminate | lia].
Qed.

End Numbers.

Section ParseInt.

(** A digit is neither white space nor a sign. *)
Lemma digit_plain (c : ascii) :
  isDigit c = true ->
  isWhiteSpace c = false /\ (c =? "-")%char = false /\ (c =? "+")%char = false.
Proof.
  destruct c as [[|] [|] [|] [|] [|] [|] [|] [|]]; intros H;
    try discriminate H; now repeat split.
Qed.

Lemma digitPrefix_string_of_uint (d : uint) :
  digitPrefix (NilEmpty.string_of_uint d) = d.
Proof. induction d; simpl; congruence. Qed.

Lemma string_of_uint_head (d : uint) :
  d <> Nil ->
  exists c r, NilEmpty.string_of_uint d = String c r /\ isDigit c = true.
Proof. destruct d; intros H; try congruence; simpl; eauto. Qed.

Lemma digitPrefix_nonempty (s : string) :
  digitPrefix s <> Nil <-> startsWithDigit s = true.
Proof.
  destruct s as [|c r]; simpl; [split; [congruence | discriminate] |].
  unfold isDigit. destruct (digitOf c) as [d|] eqn:E.
  - split; [reflexivity | intros _].
    destruct c as [[|] [|] [|] [|] [|] [|] [|] [|]]; simpl in E;
      try discriminate E; injection E as <-; discriminate.
  - split; [congruence | discriminate].
Qed.

Lemma digitPrefix_app (s rest : string) :
  startsWithDigit rest = false ->
  digitPrefix (s ++ rest)%string = digitPrefix s.
Proof.
  intros Hrest. induction s as [|c r IH]; simpl.
  - destruct rest as [|c r]; [reflexivity |]. simpl in *.
    unfold isDigit in Hrest. destruct (digitOf c); [discriminate | reflexivity].
  - destruct (digitOf c); [now rewrite IH | reflexivity].
Qed.

Lemma trimStart_app (s rest : string) :
  trimStart s <> EmptyString ->
  trimStart (s ++ rest)%string = (trimStart s ++ rest)%string.
Proof.
  induction s as [|c r IH]; simpl; [congruence |].
  destruct (isWhiteSpace c); [exact IH | reflexivity].
Qed.

Lemma splitSign_app (s rest : string) :
  digitPrefix (snd (splitSign s)) <> Nil ->
  splitSign (s ++ rest)%string
  = (fst (splitSign s), (snd (splitSign s) ++ rest)%string).
Proof.
  destruct s as [|c r]; simpl; [congruence |].
  destruct (c =? "-")%char; [reflexivity |].
  destruct (c =? "+")%char; reflexivity.
Qed.

(** [parseInt] in terms of its three stages. *)
Lemma parseInt_unfold (s : string) :
  parseInt s =
  match digitPrefix (snd (splitSign (trimStart s))) with
  | Nil => NaN
  | ds => ofInteger (fst (splitSign (trimStart s)) <? 0)%Z (Z.of_uint ds)
  end.
Proof. unfold parseInt. destruct (splitSign (trimStart s)); reflexivity. Qed.

(** [parseInt] is [NaN] exactly when no integer leads the string. *)
Lemma parseInt_isNaN (s : string) :
  isNaN (parseInt s) = negb (hasLeadingInteger s).
Proof.
  rewrite parseInt_unfold. unfold hasLeadingInteger.
  destruct (startsWithDigit _) eqn:E.
  - apply digitPrefix_nonempty in E.
    destruct (digitPrefix _); [congruence | apply isNaN_ofInteger ..].
  - destruct (digitPrefix _) eqn:E'; [reflexivity | exfalso ..];
      assert (startsWithDigit (snd (splitSign (trimStart s))) = true)
        by (apply digitPrefix_nonempty; rewrite E'; discriminate);
      congruence.
Qed.

Lemma parseInt_digits (s : string) :
  isNaN (parseInt s) = false ->
  digitPrefix (snd (splitSign (trimStart s))) <> Nil.
Proof.
  rewrite parseInt_isNaN. unfold hasLeadingInteger. intros H.
  apply digitPrefix_nonempty. now destruct (startsWithDigit _).
Qed.

(** Characters after the digits are ignored. *)
Lemma parseInt_app (s rest : string) :
  startsWithDigit rest = false ->
  isNaN (parseInt s) = false ->
  parseInt (s ++ rest)%string = parseInt s.
Proof.
  intros Hrest Hs. pose proof (parseInt_digits _ Hs) as Hd.
  assert (trimStart s <> EmptyString) as Ht.
  { intros E. rewrite E in Hd. simpl in Hd. congruence. }
  rewrite !parseInt_unfold.
  rewrite (trimStart_app _ _ Ht), (splitSign_app _ _ Hd). simpl.
  now rewrite (digitPrefix_app _ _ Hrest).
Qed.

(** Reading the decimal writing of an integer gives its double. *)
Lemma parseInt_decimal (z : Z) : parseInt (decimal z) = ofZ z.
Proof.
  pose proof (DecimalZ.of_to z) as Hz. unfold decimal.
  destruct z as [|p|p]; [reflexivity | |]; simpl in Hz.
  - assert (Pos.to_uint p <> Nil) as Hnil.
    { intros E. rewrite E in Hz. discriminate Hz. }
    destruct (string_of_uint_head _ Hnil) as (c & r & Hs & Hc).
    apply digit_plain in Hc as (Hw & Hm & Hp).
    rewrite parseInt_unfold. simpl Z.to_int. simpl NilEmpty.string_of_int.
    rewrite Hs. simpl trimStart. rewrite Hw. simpl splitSign. rewrite Hm, Hp.
    simpl snd. simpl fst. rewrite <- Hs, digitPrefix_string_of_uint.
    destruct (Pos.to_uint p); [congruence | rewrite Hz; reflexivity ..].
  - assert (Pos.to_uint p <> Nil) as Hnil.
    { intros E. rewrite E in Hz. discriminate Hz. }
    rewrite parseInt_unfold. simpl Z.to_int. simpl NilEmpty.string_of_int.
    simpl trimStart. simpl splitSign. simpl snd. simpl fst.
    rewrite digitPrefix_string_of_uint.
    assert (Z.of_uint (Pos.to_uint p) = Z.pos p) as Hq by lia.
    destruct (Pos.to_uint p); [congruence | rewrite Hq; reflexivity ..].
Qed.

Lemma shortestFrom_unfold (x : Z) (p : nat) :
  shortestFrom x p =
  let g := 10 ^ Z.of_nat p in
  let lo := x / g * g in
  let hi := lo + g in
  match roundsTo lo x, roundsTo hi x with
  | true, true =>
      if (x - lo <? hi - x)%Z then lo
      else if (hi - x <? x - lo)%Z then hi
      else if Z.even (x / g) then lo else hi
  | true, false => lo
  | false, true => hi
  | false, false =>
      match p with
      | O => x
      | S p' => shortestFrom x p'
      end
  end.
Proof. destruct p; reflexivity. Qed.

(** The shortest decimal of a double rounds to that double. *)
Lemma shortestFrom_rounds (x : Z) (p : nat) :
  ofZ x = Num x -> ofZ (shortestFrom x p) = Num x.
Proof.
  intros Hx. induction p as [|p IH]; rewrite shortestFrom_unfold; cbv zeta;
    unfold roundsTo; repeat case_bool_decide; cbv iota;
    repeat match goal with |- context [if ?b then _ else _] => destruct b end;
    assumption.
Qed.

(** A safe integer prints as its decimal writing. *)
Lemma toString_safe (z : Z) : Z.abs z < 2 ^ 53 -> toString (Num z) = decimal z.
Proof.
  intros Hz.
  assert (forall x, 0 < x < 2 ^ 53 -> formatPositive (shortest x) = decimal x)
    as Hpos.
  { intros x Hx.
    assert (shortest x = x) as ->.
    { apply (ofZ_rounds_safe _ x Hx). unfold shortest.
      apply shortestFrom_rounds, ofZ_safe. lia. }
    unfold formatPositive. cbv zeta.
    destruct (Z.ltb_spec x (10 ^ 21)) as [_|Hge]; [reflexivity |].
    change (10 ^ 21) with 1000000000000000000000 in Hge.
    rewrite two_53 in Hx. lia. }
  unfold toString.
  destruct (Z.eqb_spec z 0) as [->|Hne]; [reflexivity |].
  destruct (Z.ltb_spec z 0) as [Hneg|Hnn].
  - rewrite Hpos by lia. destruct z; try lia. reflexivity.
  - apply Hpos. lia.
Qed.

(** Reading back what [toString] printed, for a safe integer. *)
Lemma parseInt_toString (z : Z) :
  Z.abs z < 2 ^ 53 -> parseInt (toString (Num z)) = Num z.
Proof.
  intros Hz. rewrite toString_safe, parseInt_decimal by exact Hz.
  now apply ofZ_safe.
Qed.

Example parseInt_7 : parseInt "7" = Num 7.
Proof. reflexivity. Qed.

Example parseInt_trailing : parseInt "7abc" = Num 7.
Proof. reflexivity. Qed.

Example parseInt_no_digits : parseInt "abc" = NaN.
Proof. reflexivity. Qed.

Example parseInt_space_sign : parseInt "  -42px" = Num (-42).
Proof. reflexivity. Qed.

Example parseInt_sign_only : parseInt "-" = NaN.
Proof. reflexivity. Qed.

Example parseInt_empty : parseInt "" = NaN.
Proof. reflexivity. Qed.

Example parseInt_leading_zeros : parseInt "007" = Num 7.
Proof. reflexivity. Qed.

Example parseInt_negative_zero : parseInt "-0" = NegZero.
Proof. reflexivity. Qed.

Example parseInt_rounds : parseInt "9007199254740993" = Num 9007199254740992.
Proof. vm_compute. reflexivity. Qed.

Example add_rounds : add (Num (2 ^ 53)) (Num 1) = Num (2 ^ 53).
Proof. vm_compute. reflexivity. Qed.

Example add_ties_to_even :
  add (Num (2 ^ 53)) (Num 3) = Num 9007199254740996.
Proof. vm_compute. reflexivity. Qed.

Example sub_infinities : sub (Infinity false) (Infinity false) = NaN.
Proof. reflexivity. Qed.

Example toString_negative : toString (Num (-42)) = "-42".
Proof. vm_compute. reflexivity. Qed.

Example toString_zero : toString (Num 0) = "0".
Proof. reflexivity. Qed.

Example toString_shortest :
  toString (Num (2 ^ 64)) = "18446744073709552000".
Proof. vm_compute. reflexivity. Qed.

Example toString_exponent : toString (Num (10 ^ 21)) = "1e+21".
Proof. vm_compute. reflexivity. Qed.

Example toString_exponent_fraction :
  toString (Num (2 ^ 70)) = "1.1805916207174113e+21".
Proof. vm_compute. reflexivity. Qed.

Example parseInt_exponent : parseInt (toString (Num (10 ^ 21))) = Num 1.
Proof. vm_compute. reflexivity. Qed.

End ParseInt.

Section Grammar.

(** The parser's character tests are the ones by code. *)
Lemma char_codes (c : ascii) :
  isWhiteSpace c = isStrWhiteSpaceChar c
  /\ isDigit c = isDecimalDigit c
  /\ (c =? "-")%char = (N_of_ascii c =? 45)%N
  /\ (c =? "+")%char = (N_of_ascii c =? 43)%N.
Proof.
  destruct c as [[|] [|] [|] [|] [|] [|] [|] [|]]; now repeat split.
Qed.

Lemma trimStart_skipWhiteSpace (s : string) : trimStart s = skipWhiteSpace s.
Proof.
  induction s as [|c r IH]; [reflexivity |]. simpl.
  destruct (char_codes c) as (<- & _). now rewrite IH.
Qed.

Lemma startsWithDigit_codes (s : string) :
  startsWithDigit s = beginsWithDecimalDigit s.
Proof. destruct s as [|c r]; [reflexivity | apply char_codes]. Qed.

Lemma hasLeadingInteger_codes (s : string) :
  hasLeadingInteger s = beginsWithInteger s.
Proof.
  unfold hasLeadingInteger, beginsWithInteger.
  rewrite trimStart_skipWhiteSpace.
  destruct (skipWhiteSpace s) as [|c r]; [reflexivity |]. simpl splitSign.
  destruct (char_codes c) as (_ & Hd & -> & ->).
  destruct (N_of_ascii c =? 45)%N; [apply startsWithDigit_codes |].
  destruct (N_of_ascii c =? 43)%N; [apply startsWithDigit_codes |].
  exact Hd.
Qed.

Lemma trimStart_white (ws s : string) :
  forallb isStrWhiteSpaceChar (list_ascii_of_string ws) = true ->
  trimStart (ws ++ s)%string = trimStart s.
Proof.
  induction ws as [|c r IH]; [reflexivity |]. simpl. intros H.
  apply andb_prop in H as [Hc Hr].
  destruct (char_codes c) as (-> & _). rewrite Hc. now apply IH.
Qed.

Lemma of_uint_nonneg (d : uint) : 0 <= Z.of_uint d.
Proof. unfold Z.of_uint. apply N2Z.is_nonneg. Qed.

Lemma ofInteger_signedValue (negative : bool) (d : uint) :
  ofInteger negative (Z.of_uint d) = signedValue negative d.
Proof.
  pose proof (of_uint_nonneg d) as Hd. unfold signedValue. cbv zeta.
  destruct negative.
  - destruct (Z.eqb_spec (Z.of_uint d) 0) as [E|E].
    + unfold ofInteger. now rewrite E.
    + destruct (Z.ltb_spec (Z.of_uint d) (2 ^ 53)); [| reflexivity].
      apply ofInteger_safe. lia.
  - destruct (Z.ltb_spec (Z.of_uint d) (2 ^ 53)); [| reflexivity].
    destruct (Z.eqb_spec (Z.of_uint d) 0) as [E|E].
    + unfold ofInteger. now rewrite E.
    + apply ofInteger_safe. lia.
Qed.

(** A run of digits, then something that is no digit. *)
Lemma parseInt_body (negative : bool) (d : uint) (rest : string) :
  d <> Nil ->
  beginsWithDecimalDigit rest = false ->
  match digitPrefix (NilEmpty.string_of_uint d ++ rest)%string with
  | Nil => NaN
  | ds => ofInteger negative (Z.of_uint ds)
  end = signedValue negative d.
Proof.
  intros Hd Hrest. rewrite <- startsWithDigit_codes in Hrest.
  rewrite (digitPrefix_app _ _ Hrest), digitPrefix_string_of_uint.
  rewrite <- ofInteger_signedValue. destruct d; [congruence | reflexivity ..].
Qed.

(** [parseInt] on white space, an optional sign, digits and a rest. *)
Lemma parseInt_grammar (ws : string) (d : uint) (rest : string) :
  forallb isStrWhiteSpaceChar (list_ascii_of_string ws) = true ->
  d <> Nil ->
  beginsWithDecimalDigit rest = false ->
  parseInt (ws ++ NilEmpty.string_of_uint d ++ rest)%string
  = signedValue false d
  /\ parseInt (ws ++ "+" ++ NilEmpty.string_of_uint d ++ rest)%string
     = signedValue false d
  /\ parseInt (ws ++ "-" ++ NilEmpty.string_of_uint d ++ rest)%string
     = signedValue true d.
Proof.
  intros Hws Hd Hrest. repeat split.
  - rewrite parseInt_unfold, (trimStart_white _ _ Hws).
    destruct (string_of_uint_head d Hd) as (c & r & Hs & Hc).
    apply digit_plain in Hc as (Hw & Hm & Hp).
    assert (trimStart (NilEmpty.string_of_uint d ++ rest)%string
            = (NilEmpty.string_of_uint d ++ rest)%string) as ->.
    { rewrite Hs. change (String c r ++ rest)%string
        with (String c (r ++ rest)%string). simpl. now rewrite Hw. }
    assert (splitSign (NilEmpty.string_of_uint d ++ rest)%string
            = (1, (NilEmpty.string_of_uint d ++ rest)%string)) as ->.
    { rewrite Hs. change (String c r ++ rest)%string
        with (String c (r ++ rest)%string). simpl. now rewrite Hm, Hp. }
    now apply parseInt_body.
  - rewrite parseInt_unfold, (trimStart_white _ _ Hws).
    change ("+" ++ NilEmpty.string_of_uint d ++ rest)%string
      with (String "+" (NilEmpty.string_of_uint d ++ rest)%string).
    now apply parseInt_body.
  - rewrite parseInt_unfold, (trimStart_white _ _ Hws).
    change ("-" ++ NilEmpty.string_of_uint d ++ rest)%string
      with (String "-" (NilEmpty.string_of_uint d ++ rest)%string).
    now apply parseInt_body.
Qed.

(** The decimal writing of an integer of at most 53 bits reads back as
    that integer. *)
Lemma ofZ_exact (n : Z) : Z.abs n <= 2 ^ 53 -> ofZ n = Num n.
Proof.
  intros Hn. destruct (Z.eq_dec (Z.abs n) (2 ^ 53)) as [E|E].
  - assert (n = 2 ^ 53 \/ n = - 2 ^ 53) as [-> | ->] by lia;
      vm_compute; reflexivity.
  - apply ofZ_safe. lia.
Qed.

End Grammar.

(* ===================================================================== *)
(** ** The handlers against the specification's transitions *)
(* ===================================================================== *)

Section Handlers.

Lemma flush_increment (s : number) (h : Hooks) :
  flush (handleIncrement s) h = applyDelta s h.
Proof. reflexivity. Qed.

Lemma flush_decrement (s : number) (h : Hooks) :
  flush (handleDecrement s) h = applyDelta (neg s) h.
Proof.
  unfold applyDelta. rewrite <- sub_add_neg. reflexivity.
Qed.

Lemma flush_reset (h : Hooks) : flush handleReset h = reset h.
Proof. reflexivity. Qed.

Lemma flush_stepChange (value : string) (h : Hooks) :
  flush (handleStepChange value) h =
  if isNaN (parseInt value) then h
  else mkHooks (count h) (history h) (Math_max (Num 1) (parseInt value)).
Proof.
  unfold handleStepChange. destruct (isNaN (parseInt value)); reflexivity.
Qed.

Lemma flush_keyPress (s : number) (key : string) (h : Hooks) :
  flush (handleKeyPress s key) h =
  if strictEq key "ArrowUp" then applyDelta s h
  else if strictEq key "ArrowDown" then applyDelta (neg s) h
  else h.
Proof.
  unfold handleKeyPress.
  destruct (strictEq key "ArrowUp"); [apply flush_increment |].
  destruct (strictEq key "ArrowDown"); [apply flush_decrement | reflexivity].
Qed.

Lemma flush_app (ds ds' : list Dispatch) (h : Hooks) :
  flush (ds ++ ds') h = flush ds' (flush ds h).
Proof. apply fold_left_app. Qed.

Lemma handlerOf_transition (s : number) (t : Transition) (h : Hooks) :
  flush (handlerOf s t) h = applyDelta (delta s t) h.
Proof. destruct t; [apply flush_increment | apply flush_decrement]. Qed.

Lemma applyDelta_step (d : number) (h : Hooks) : step (applyDelta d h) = step h.
Proof. reflexivity. Qed.

Lemma applyDelta_ends (d : number) (h : Hooks) :
  historyEndsAtCount (applyDelta d h).
Proof. unfold historyEndsAtCount. simpl. apply last_snoc. Qed.

Lemma initHistory_initCount (ls : gmap string string) :
  initHistory ls = [initCount ls].
Proof.
  unfold initHistory, initCount. destruct (getItem ls STORAGE_KEY); reflexivity.
Qed.

End Handlers.

(* ===================================================================== *)
(** ** Renders, commits and the invariant *)
(* ===================================================================== *)

Section Commit.

(** A re-render finds its three cells filled: no initializer runs and the
    storage is not consulted. *)
Lemma AdvancedCounter_rerender (ls : gmap string string) (h : Hooks) :
  AdvancedCounter ls (cellsOf h) = (h, (false, false)).
Proof. destruct h; reflexivity. Qed.

Lemma render_rerender (prev h : Hooks) (w : World) :
  render (Some prev) (cellsOf h) w = commit (Some prev) h w.
Proof.
  unfold render. rewrite AdvancedCounter_rerender. destruct w; reflexivity.
Qed.

Lemma dispatchEvent_commit (w : World) (e : Event) :
  dispatchEvent w e
  = commit (Some (hooks w)) (flush (handlers w e) (hooks w)) w.
Proof. unfold dispatchEvent. apply render_rerender. Qed.

Lemma hooks_commit (prev : option Hooks) (next : Hooks) (w : World) :
  hooks (commit prev next w) = next.
Proof.
  unfold commit.
  destruct (depsChanged (count <$> prev) _), (depsChanged (step <$> prev) _);
    simpl; try reflexivity; unfold runCleanup; simpl;
    destruct (cleanup w); reflexivity.
Qed.

Lemma hooks_dispatchEvent (w : World) (e : Event) :
  hooks (dispatchEvent w e) = flush (handlers w e) (hooks w).
Proof. rewrite dispatchEvent_commit. apply hooks_commit. Qed.

Lemma run_app (w : World) (es es' : list Event) :
  run w (es ++ es') = run (run w es) es'.
Proof. apply fold_left_app. Qed.

Lemma removeEventListener_self {E} (l : closure E) :
  removeEventListener l [l] = [].
Proof.
  unfold removeEventListener, sameRef. simpl. now rewrite Nat.eqb_refl.
Qed.

(** The storage and the write counter after a commit: one write when
    [count] changed, none otherwise. *)
Lemma commit_storage (prev next : Hooks) (w : World) :
  localStorage (commit (Some prev) next w)
  = (if Object_is (count next) (count prev) then localStorage w
     else setItem (localStorage w) STORAGE_KEY (toString (count next)))
  /\ setItemCalls (commit (Some prev) next w)
     = (if Object_is (count next) (count prev) then setItemCalls w
        else S (setItemCalls w)).
Proof.
  unfold commit, depsChanged, areHookInputsEqual. simpl.
  destruct (Object_is (count next) (count prev)),
           (Object_is (step next) (step prev)); simpl;
    unfold runCleanup; simpl; destruct (cleanup w); simpl; auto.
Qed.

(** The listeners after a commit, when one was registered before. *)
Lemma commit_listeners (next : Hooks) (w : World) :
  oneListener w ->
  oneListener (commit (Some (hooks w)) next w)
  /\ (step next = step (hooks w) ->
      listeners (commit (Some (hooks w)) next w) = listeners w).
Proof.
  intros (l & Hl & Hc & He).
  unfold commit, depsChanged, areHookInputsEqual. simpl.
  destruct (Object_is (step next) (step (hooks w))) eqn:Es; simpl.
  - apply Object_is_true in Es. split.
    + exists l. destruct (Object_is (count next) (count (hooks w))); simpl;
        repeat split; congruence.
    + intros _. destruct (Object_is (count next) (count (hooks w))); reflexivity.
  - apply Object_is_false in Es. split; [| congruence].
    unfold runCleanup. simpl. rewrite Hc. simpl. rewrite Hl.
    rewrite removeEventListener_self.
    destruct (Object_is (count next) (count (hooks w))); simpl;
      eexists; repeat split.
Qed.

Lemma commit_inits (prev : option Hooks) (next : Hooks) (w : World) :
  initRuns (commit prev next w) = initRuns w.
Proof.
  unfold commit.
  destruct (depsChanged (count <$> prev) _), (depsChanged (step <$> prev) _);
    simpl; try reflexivity; unfold runCleanup; simpl;
    destruct (cleanup w); reflexivity.
Qed.

Lemma handlers_keyDown (w : World) (key : string) :
  oneListener w ->
  handlers w (KeyDown key) = handleKeyPress (step (hooks w)) key.
Proof.
  intros (l & Hl & _ & He). simpl. rewrite Hl. simpl.
  rewrite app_nil_r. now rewrite He.
Qed.

Lemma Inv_commit (next : Hooks) (w : World) :
  Inv w ->
  lessEq (Num 1) (step next) = true ->
  historyEndsAtCount next ->
  Inv (commit (Some (hooks w)) next w).
Proof.
  intros [Hl Hs Hm Hh Hi] Hstep Hhist. split.
  - now apply commit_listeners.
  - unfold stepPositive. now rewrite hooks_commit.
  - unfold mirrored. rewrite hooks_commit.
    destruct (commit_storage (hooks w) next w) as [-> _].
    destruct (Object_is (count next) (count (hooks w))) eqn:Ec.
    + apply Object_is_true in Ec. rewrite Ec. exact Hm.
    + unfold setItem. apply lookup_insert_eq.
  - now rewrite hooks_commit.
  - now rewrite commit_inits.
Qed.

Lemma Inv_mount (ls : gmap string string) : Inv (mount ls).
Proof.
  split.
  - eexists. repeat split.
  - reflexivity.
  - unfold mirrored, mount, render. simpl. unfold setItem.
    apply lookup_insert_eq.
  - unfold historyEndsAtCount. simpl. now rewrite initHistory_initCount.
  - reflexivity.
Qed.

Lemma Inv_dispatchEvent (w : World) (e : Event) :
  Inv w -> Inv (dispatchEvent w e).
Proof.
  intros HI. rewrite dispatchEvent_commit.
  pose proof (inv_step _ HI) as Hs. pose proof (inv_history _ HI) as Hh.
  apply Inv_commit; [exact HI | |].
  - destruct e as [[| |]|value|key].
    + simpl handlers. now rewrite flush_decrement.
    + simpl handlers. now rewrite flush_increment.
    + simpl handlers. now rewrite flush_reset.
    + simpl handlers. rewrite flush_stepChange.
      destruct (isNaN (parseInt value)) eqn:En; [exact Hs |].
      now apply lessEq_1_Math_max.
    + rewrite handlers_keyDown by apply HI. rewrite flush_keyPress.
      destruct (strictEq key "ArrowUp"); [exact Hs |].
      destruct (strictEq key "ArrowDown"); exact Hs.
  - destruct e as [[| |]|value|key].
    + simpl handlers. rewrite flush_decrement. apply applyDelta_ends.
    + simpl handlers. rewrite flush_increment. apply applyDelta_ends.
    + reflexivity.
    + simpl handlers. rewrite flush_stepChange.
      destruct (isNaN (parseInt value)); exact Hh.
    + rewrite handlers_keyDown by apply HI. rewrite flush_keyPress.
      destruct (strictEq key "ArrowUp"); [apply applyDelta_ends |].
      destruct (strictEq key "ArrowDown"); [apply applyDelta_ends | exact Hh].
Qed.

Lemma Inv_run (w : World) (es : list Event) : Inv w -> Inv (run w es).
Proof.
  revert w. induction es as [|e es IH]; intros w HI; [exact HI |].
  simpl. apply IH. now apply Inv_dispatchEvent.
Qed.

Lemma Inv_reachable (ls : gmap string string) (es : list Event) :
  Inv (run (mount ls) es).
Proof. apply Inv_run, Inv_mount. Qed.

End Commit.

Section Reachable.

Lemma Object_is_refl (x : number) : Object_is x x = true.
Proof. now apply Object_is_true. Qed.

(** A commit whose render changed nothing leaves the world as it was. *)
Lemma commit_same (w : World) : commit (Some (hooks w)) (hooks w) w = w.
Proof.
  unfold commit, depsChanged, areHookInputsEqual. simpl.
  rewrite !Object_is_refl. destruct w; reflexivity.
Qed.

Lemma dispatchEvent_idle (w : World) (e : Event) :
  flush (handlers w e) (hooks w) = hooks w -> dispatchEvent w e = w.
Proof. intros H. rewrite dispatchEvent_commit, H. apply commit_same. Qed.

(** What a key press does to the state of a mounted component. *)
Lemma hooks_keyDown (w : World) (key : string) :
  Inv w ->
  hooks (dispatchEvent w (KeyDown key)) =
  if strictEq key "ArrowUp" then applyDelta (step (hooks w)) (hooks w)
  else if strictEq key "ArrowDown"
       then applyDelta (neg (step (hooks w))) (hooks w)
       else hooks w.
Proof.
  intros HI. rewrite hooks_dispatchEvent, handlers_keyDown by apply HI.
  apply flush_keyPress.
Qed.

Lemma hooks_eventOf (w : World) (t : Transition * Trigger) :
  Inv w ->
  hooks (dispatchEvent w (eventOf t)) = transition (hooks w) (fst t).
Proof.
  intros HI. destruct t as [[|] [|]]; simpl eventOf.
  - rewrite hooks_dispatchEvent. apply flush_increment.
  - now rewrite hooks_keyDown.
  - rewrite hooks_dispatchEvent. apply flush_decrement.
  - now rewrite hooks_keyDown.
Qed.

Lemma hooks_run_transitions (w : World) (ts : list (Transition * Trigger)) :
  Inv w ->
  hooks (run w (map eventOf ts)) = fold_left transition (map fst ts) (hooks w).
Proof.
  revert w. induction ts as [|t ts IH]; intros w HI; [reflexivity |].
  simpl. rewrite IH by now apply Inv_dispatchEvent.
  now rewrite hooks_eventOf.
Qed.

Lemma hooks_run_buttons (w : World) (ts : list Transition) :
  hooks (run w (map (fun t => eventOf (t, ByButton)) ts))
  = fold_left transition ts (hooks w).
Proof.
  revert w. induction ts as [|t ts IH]; intros w; [reflexivity |].
  simpl. rewrite IH. f_equal. rewrite hooks_dispatchEvent.
  destruct t; [apply flush_increment | apply flush_decrement].
Qed.

(** A batch of handlers that all close over the same render. *)
Lemma flush_batch (s : number) (ts : list Transition) (h : Hooks) :
  step h = s ->
  flush (flat_map (handlerOf s) ts) h = fold_left transition ts h.
Proof.
  revert h. induction ts as [|t ts IH]; intros h Hs; [reflexivity |].
  simpl. rewrite flush_app, handlerOf_transition.
  rewrite IH by (now rewrite applyDelta_step).
  now subst s.
Qed.

(** What one event does to [history]: a reset replaces it, anything else
    appends at most one element. *)
Lemma history_dispatchEvent (w : World) (e : Event) :
  Inv w ->
  match e with
  | Click Reset => hooks (dispatchEvent w e) = reset (hooks w)
  | _ => exists suffix,
           history (hooks (dispatchEvent w e)) = history (hooks w) ++ suffix
           /\ (length suffix <= 1)%nat
  end.
Proof.
  intros HI. destruct e as [[| |]|value|key].
  - rewrite hooks_dispatchEvent. simpl handlers. rewrite flush_decrement.
    eexists. split; [reflexivity | simpl; lia].
  - rewrite hooks_dispatchEvent. simpl handlers. rewrite flush_increment.
    eexists. split; [reflexivity | simpl; lia].
  - rewrite hooks_dispatchEvent. apply flush_reset.
  - rewrite hooks_dispatchEvent. simpl handlers. rewrite flush_stepChange.
    exists []. rewrite app_nil_r.
    destruct (parseInt value); split; simpl; (reflexivity || lia).
  - rewrite hooks_keyDown by exact HI.
    destruct (strictEq key "ArrowUp");
      [eexists; split; [reflexivity | simpl; lia] |].
    destruct (strictEq key "ArrowDown");
      [eexists; split; [reflexivity | simpl; lia] |].
    exists []. rewrite app_nil_r. split; [reflexivity | simpl; lia].
Qed.

Lemma head_app_Some {A} (l k : list A) (a : A) :
  head l = Some a -> head (l ++ k) = Some a.
Proof. destruct l; [discriminate | easy]. Qed.

Lemma head_anchor (w : World) (a : number) (es : list Event) :
  Inv w ->
  head (history (hooks w)) = Some a ->
  head (history (hooks (run w es))) = Some (anchor w a es).
Proof.
  revert w a. induction es as [|e es IH]; intros w a HI Ha; [exact Ha |].
  simpl. apply IH; [now apply Inv_dispatchEvent |].
  pose proof (history_dispatchEvent w e HI) as He.
  destruct e as [[| |]|value|key];
    try (destruct He as (suffix & -> & _); now apply head_app_Some).
  rewrite He. reflexivity.
Qed.

Lemma storage_frame_commit (prev next : Hooks) (w : World) :
  delete STORAGE_KEY (localStorage (commit (Some prev) next w))
  = delete STORAGE_KEY (localStorage w).
Proof.
  destruct (commit_storage prev next w) as [-> _].
  destruct (Object_is _ _); [reflexivity |].
  unfold setItem. apply delete_insert_eq.
Qed.

Lemma storage_frame_run (w : World) (es : list Event) :
  delete STORAGE_KEY (localStorage (run w es))
  = delete STORAGE_KEY (localStorage w).
Proof.
  revert w. induction es as [|e es IH]; intros w; [reflexivity |].
  simpl. rewrite IH, dispatchEvent_commit. apply storage_frame_commit.
Qed.

End Reachable.

(* ===================================================================== *)
(** ** Properties of the widget *)
(* ===================================================================== *)

(** C1.  Transitions compose against the latest state.  From every world
    the mounted component can reach, any sequence of increments and
    decrements, each triggered by its button or its arrow key, leaves the
    state the left fold of [applyDelta] gives; from an arbitrary world the
    same holds of button clicks; and a batch of handler calls that all
    close over one render still folds, so no call works on a stale count.
    From [count = 0], [step = 3]: three increments give [9] and
    [[0; 3; 6; 9]], a decrement then gives [6] and [[0; 3; 6; 9; 6]]. *)
Theorem C1_transitions_compose :
  (forall (ls : gmap string string) (es : list Event)
          (ts : list (Transition * Trigger)),
      let w := run (mount ls) es in
      hooks (run w (map eventOf ts))
      = fold_left transition (map fst ts) (hooks w))
  /\ (forall (w : World) (ts : list Transition),
      hooks (run w (map (fun t => eventOf (t, ByButton)) ts))
      = fold_left transition ts (hooks w))
  /\ (forall (h : Hooks) (ts : list Transition),
      flush (flat_map (handlerOf (step h)) ts) h = fold_left transition ts h)
  /\ (let w := run (mount ∅) [Change "3"] in
      hooks w = mkHooks (Num 0) [Num 0] (Num 3)
      /\ hooks (run w [Click Increment; Click Increment; Click Increment])
         = mkHooks (Num 9) [Num 0; Num 3; Num 6; Num 9] (Num 3)
      /\ hooks (run w [Click Increment; Click Increment; Click Increment;
                       Click Decrement])
         = mkHooks (Num 6) [Num 0; Num 3; Num 6; Num 9; Num 6] (Num 3)).
Proof.
  split; [| split; [| split]].
  - intros ls es ts w. apply hooks_run_transitions, Inv_reachable.
  - apply hooks_run_buttons.
  - intros h ts. now apply flush_batch.
  - repeat split; vm_compute; reflexivity.
Qed.

(** C2, as the code has it.  When the slot is present and does not parse,
    the two initializers agree: [count] is [NaN] and [history] is [[NaN]];
    neither falls back to the default. *)
Theorem C2_init_paths_agree (ls : gmap string string) (savedCount : string) :
  getItem ls STORAGE_KEY = Some savedCount ->
  parseInt savedCount = NaN ->
  initCount ls = NaN
  /\ initHistory ls = [NaN]
  /\ hooks (mount ls) = mkHooks NaN [NaN] (Num 1)
  /\ ~ initPathsDiverge ls.
Proof.
  intros Hget Hparse.
  assert (initCount ls = NaN) as Hc by (unfold initCount; now rewrite Hget).
  assert (initHistory ls = [NaN]) as Hh
    by (now rewrite initHistory_initCount, Hc).
  repeat split; try assumption.
  - unfold mount, render. simpl. now rewrite Hc, Hh.
  - intros (x & Hx & Hne). rewrite Hh in Hx. injection Hx as <-.
    rewrite Hc in Hne. now apply Hne.
Qed.

Lemma C2_init_paths_agree_witness :
  getItem {[ STORAGE_KEY := "abc" ]} STORAGE_KEY = Some "abc"
  /\ parseInt "abc" = NaN
  /\ (initCount {[ STORAGE_KEY := "abc" ]} = NaN
      /\ initHistory {[ STORAGE_KEY := "abc" ]} = [NaN]
      /\ hooks (mount {[ STORAGE_KEY := "abc" ]}) = mkHooks NaN [NaN] (Num 1)
      /\ ~ initPathsDiverge {[ STORAGE_KEY := "abc" ]}).
Proof.
  split; [reflexivity | split; [reflexivity |]].
  apply (C2_init_paths_agree {[ STORAGE_KEY := "abc" ]} "abc");
    reflexivity.
Defined.

(** C2, as the specification words it, fails on the storage that holds ["abc"]:
    the slot is present and does not parse, yet the two paths do not
    diverge. *)
Lemma C2_counterexample :
  getItem {[ STORAGE_KEY := "abc" ]} STORAGE_KEY = Some "abc"
  /\ parseInt "abc" = NaN
  /\ initCount {[ STORAGE_KEY := "abc" ]} = NaN
  /\ initHistory {[ STORAGE_KEY := "abc" ]} = [NaN]
  /\ ~ initPathsDiverge {[ STORAGE_KEY := "abc" ]}.
Proof.
  repeat split.
  intros (x & Hx & Hne). injection Hx as <-. now apply Hne.
Qed.

(** C3.  The history invariant.  At mount [history] is [[count]]; in every
    reachable world its first element is the value [count] had at the most
    recent mount or reset and its last element is [count]; a reset replaces
    it by [[0]], every other event keeps it as a prefix and appends at most
    one element, an increment or decrement exactly one, the new [count]. *)
Theorem C3_history_invariant :
  forall (ls : gmap string string) (es : list Event),
    let w0 := mount ls in
    let w := run w0 es in
    history (hooks w0) = [count (hooks w0)]
    /\ head (history (hooks w)) = Some (anchor w0 (count (hooks w0)) es)
    /\ last (history (hooks w)) = Some (count (hooks w))
    /\ (forall e : Event,
         match e with
         | Click Reset =>
             history (hooks (dispatchEvent w e)) = [Num 0]
             /\ count (hooks (dispatchEvent w e)) = Num 0
         | _ => exists suffix,
             history (hooks (dispatchEvent w e)) = history (hooks w) ++ suffix
             /\ (length suffix <= 1)%nat
         end)
    /\ (forall t : Transition * Trigger,
         history (hooks (dispatchEvent w (eventOf t)))
         = history (hooks w) ++ [count (hooks (dispatchEvent w (eventOf t)))]).
Proof.
  intros ls es w0 w.
  assert (Inv w) as HI by apply Inv_reachable.
  split; [apply initHistory_initCount |].
  split.
  { apply head_anchor; [apply Inv_mount |]. subst w0. simpl.
    now rewrite initHistory_initCount. }
  split; [apply HI |].
  split.
  - intros e. pose proof (history_dispatchEvent w e HI) as He.
    destruct e as [[| |]|value|key]; try exact He.
    rewrite He. split; reflexivity.
  - intros t. rewrite hooks_eventOf by exact HI. reflexivity.
Qed.

(** C4.  The persisted slot mirrors [count] and only [count].  In every
    reachable world the slot holds [count.toString()] and the rest of the
    storage is as it was at mount.  The effect runs once at mount, and
    after an event it runs exactly when [count] changed; an edit of the
    step field never writes. *)
Theorem C4_persistence_mirrors_count :
  forall (ls : gmap string string) (es : list Event),
    let w := run (mount ls) es in
    localStorage w !! STORAGE_KEY = Some (toString (count (hooks w)))
    /\ delete STORAGE_KEY (localStorage w) = delete STORAGE_KEY ls
    /\ setItemCalls (mount ls) = 1%nat
    /\ (forall value : string,
         localStorage (dispatchEvent w (Change value)) = localStorage w
         /\ setItemCalls (dispatchEvent w (Change value)) = setItemCalls w)
    /\ (forall e : Event,
         let w' := dispatchEvent w e in
         localStorage w'
         = (if Object_is (count (hooks w')) (count (hooks w))
            then localStorage w
            else setItem (localStorage w) STORAGE_KEY
                         (toString (count (hooks w'))))
         /\ setItemCalls w'
            = (if Object_is (count (hooks w')) (count (hooks w))
               then setItemCalls w
               else S (setItemCalls w))).
Proof.
  intros ls es w.
  assert (Inv w) as HI by apply Inv_reachable.
  split; [apply HI |].
  split.
  { subst w. rewrite storage_frame_run. unfold mount, render. simpl.
    unfold setItem. apply delete_insert_eq. }
  split; [reflexivity |].
  assert (forall e : Event,
    let w' := dispatchEvent w e in
    localStorage w'
    = (if Object_is (count (hooks w')) (count (hooks w))
       then localStorage w
       else setItem (localStorage w) STORAGE_KEY (toString (count (hooks w'))))
    /\ setItemCalls w'
       = (if Object_is (count (hooks w')) (count (hooks w))
          then setItemCalls w
          else S (setItemCalls w))) as Hall.
  { intros e w'. subst w'. rewrite hooks_dispatchEvent, dispatchEvent_commit.
    apply commit_storage. }
  split; [| exact Hall].
  intros value. specialize (Hall (Change value)). simpl in Hall.
  assert (count (hooks (dispatchEvent w (Change value))) = count (hooks w))
    as Hsame.
  { rewrite hooks_dispatchEvent. simpl handlers. rewrite flush_stepChange.
    destruct (parseInt value); reflexivity. }
  rewrite Hsame, Object_is_refl in Hall. exact Hall.
Qed.


(** C6.  Listener exclusivity.  In every reachable world, however often
    the step changed, exactly one [keydown] listener is registered, it is
    the one the pending cleanup removes and it closes over the current
    step; so one Up-arrow makes exactly one increment.  When the effect
    re-runs, the cleanup empties the list before the new listener is
    attached, and unmounting leaves no listener behind. *)
Theorem C6_listener_exclusivity :
  forall (ls : gmap string string) (es : list Event),
    let w := run (mount ls) es in
    (exists l, listeners w = [l] /\ cleanup w = Some l
               /\ env l = step (hooks w))
    /\ length (listeners w) = 1%nat
    /\ (forall values : list string,
         length (listeners (run w (map Change values))) = 1%nat)
    /\ hooks (dispatchEvent w (KeyDown "ArrowUp"))
       = mkHooks (add (count (hooks w)) (step (hooks w)))
                 (history (hooks w) ++ [add (count (hooks w)) (step (hooks w))])
                 (step (hooks w))
    /\ (forall next : Hooks, listeners (runCleanup (withHooks next w)) = [])
    /\ listeners (unmount w) = []
    /\ cleanup (unmount w) = None.
Proof.
  intros ls es w.
  assert (Inv w) as HI by apply Inv_reachable.
  destruct (inv_listener _ HI) as (l & Hl & Hc & He).
  split; [now exists l |].
  split; [now rewrite Hl |].
  split.
  { intros values.
    destruct (inv_listener _ (Inv_run w (map Change values) HI))
      as (l' & -> & _).
    reflexivity. }
  split; [now rewrite hooks_keyDown |].
  assert (forall v : World,
    listeners v = [l] -> cleanup v = Some l ->
    listeners (runCleanup v) = [] /\ cleanup (runCleanup v) = None) as Hrun.
  { intros v Hvl Hvc. unfold runCleanup. rewrite Hvc. simpl. rewrite Hvl.
    split; [apply removeEventListener_self | reflexivity]. }
  split; [intros next; now apply Hrun |].
  unfold unmount. split; now apply Hrun.
Qed.

(** C7.  Reset is total and does not depend on the state: from any world
    whatever, clicking Reset gives [count = 0] and [history = [0]] and
    leaves [step] as it was. *)
Theorem C7_reset_total :
  forall w : World,
    hooks (dispatchEvent w (Click Reset))
    = mkHooks (Num 0) [Num 0] (step (hooks w)).
Proof. intros w. rewrite hooks_dispatchEvent. reflexivity. Qed.

(** C8, as the code has it.  Step clamping and rejection.  An edit whose
    text [parseInt] reads as a number sets [step] to the larger of 1 and
    that number.  For the decimal writing of an integer [n] of magnitude at
    most [2^53] that is [max(1, n)], so [0] and [-5] give 1; a longer
    integer is first rounded to a double, and one too long for a double
    gives [Infinity].  An edit whose text does not begin with an integer
    leaves the world untouched.  In every reachable world [step] is an
    integer from 1 on, or [Infinity]. *)
Theorem C8_step_clamp (n : Z) :
  Z.abs n <= 2 ^ 53 ->
  (forall w : World,
      hooks (dispatchEvent w (Change (decimal n))) = setStep n (hooks w))
  /\ (forall (w : World) (value : string),
      hooks (dispatchEvent w (Change value))
      = if isNaN (parseInt value) then hooks w
        else mkHooks (count (hooks w)) (history (hooks w))
                     (Math_max (Num 1) (parseInt value)))
  /\ (forall w : World,
      step (hooks (dispatchEvent w (Change "0"))) = Num 1
      /\ step (hooks (dispatchEvent w (Change "-5"))) = Num 1
      /\ dispatchEvent w (Change "abc") = w
      /\ dispatchEvent w (Change "") = w)
  /\ (forall (w : World) (value : string),
      dispatchEvent w (Change value)
      = if beginsWithInteger value then dispatchEvent w (Change value)
        else w)
  /\ (forall w : World,
      step (hooks (dispatchEvent w (Change (decimal (10 ^ 309)))))
      = Infinity false)
  /\ (forall (ls : gmap string string) (es : list Event),
      match step (hooks (run (mount ls) es)) with
      | Num s => 1 <= s
      | Infinity false => True
      | _ => False
      end).
Proof.
  intros Hn.
  assert (forall (w : World) (value : string),
    hooks (dispatchEvent w (Change value))
    = if isNaN (parseInt value) then hooks w
      else mkHooks (count (hooks w)) (history (hooks w))
                   (Math_max (Num 1) (parseInt value))) as Hgen.
  { intros w value. rewrite hooks_dispatchEvent. apply flush_stepChange. }
  assert (forall (w : World) (value : string),
    isNaN (parseInt value) = true -> dispatchEvent w (Change value) = w)
    as Hnan.
  { intros w value Hp. apply dispatchEvent_idle. simpl handlers.
    now rewrite flush_stepChange, Hp. }
  split.
  { intros w. rewrite Hgen, parseInt_decimal, (ofZ_exact n Hn). simpl isNaN.
    cbv iota. now rewrite Math_max_1_Num. }
  split; [exact Hgen |].
  split.
  { intros w. rewrite !Hgen. repeat split; now apply Hnan. }
  split.
  - intros w value. destruct (beginsWithInteger value) eqn:E; [reflexivity |].
    apply Hnan. now rewrite parseInt_isNaN, hasLeadingInteger_codes, E.
  - split.
    + intros w. rewrite Hgen.
      assert (parseInt (decimal (10 ^ 309)) = Infinity false) as ->
        by (vm_compute; reflexivity).
      reflexivity.
    + intros ls es. apply lessEq_1_cases. apply Inv_reachable.
Qed.

Lemma C8_step_clamp_witness :
  Z.abs (-5) <= 2 ^ 53
  /\ (forall w : World,
        hooks (dispatchEvent w (Change (decimal (-5))))
        = setStep (-5) (hooks w)).
Proof.
  assert (Z.abs (-5) <= 2 ^ 53) as H by (vm_compute; discriminate).
  split; [exact H |].
  exact (proj1 (C8_step_clamp (-5) H)).
Defined.

(** C8, as the specification words it, fails on the integer
    [9007199254740993]: the edit whose text is its decimal writing sets
    [step] to [9007199254740992], which is not [max(1, n)]. *)
Lemma C8_counterexample :
  decimal 9007199254740993 = "9007199254740993"
  /\ step (hooks (dispatchEvent (mount ∅) (Change "9007199254740993")))
     = Num 9007199254740992
  /\ ~ (forall (w : World) (n : Z),
          hooks (dispatchEvent w (Change (decimal n))) = setStep n (hooks w)).
Proof.
  assert (step (hooks (dispatchEvent (mount ∅) (Change "9007199254740993")))
          = Num 9007199254740992) as Hstep by (vm_compute; reflexivity).
  split; [reflexivity |]. split; [exact Hstep |].
  intros H. specialize (H (mount ∅) 9007199254740993).
  change (decimal 9007199254740993) with "9007199254740993" in H.
  rewrite H in Hstep. discriminate Hstep.
Qed.

(** C9.  Initialization.  Over a storage without the slot, mounting gives
    [count = 0], [history = [0]], [step = 1]; over a storage whose slot
    holds ["7"] it gives [count = 7], [history = [7]].  Each lazy
    initializer runs once, at mount: no later render runs one or reads the
    storage. *)
Theorem C9_initialization :
  hooks (mount ∅) = mkHooks (Num 0) [Num 0] (Num 1)
  /\ (forall ls : gmap string string,
      hooks (mount (delete STORAGE_KEY ls))
      = mkHooks (Num 0) [Num 0] (Num 1))
  /\ (forall ls : gmap string string,
      hooks (mount (<[STORAGE_KEY := "7"]> ls))
      = mkHooks (Num 7) [Num 7] (Num 1))
  /\ (forall ls : gmap string string, initRuns (mount ls) = (1, 1)%nat)
  /\ (forall (ls : gmap string string) (es : list Event),
      initRuns (run (mount ls) es) = (1, 1)%nat)
  /\ (forall (ls : gmap string string) (h : Hooks),
      AdvancedCounter ls (cellsOf h) = (h, (false, false))).
Proof.
  split; [reflexivity |].
  split.
  { intros ls. unfold mount, render. simpl.
    unfold initCount, initHistory, getItem. now rewrite lookup_delete_eq. }
  split.
  { intros ls. unfold mount, render. simpl.
    unfold initCount, initHistory, getItem. now rewrite lookup_insert_eq. }
  split; [reflexivity |].
  split; [intros ls es; apply Inv_reachable |].
  apply AdvancedCounter_rerender.
Qed.

(** C10.  [parseInt] reads a leading integer and ignores what follows.
    After any white space comes an optional sign, then the digits; whatever
    follows the digits, provided it does not start with a digit, is
    ignored, and the result is the signed integer the digits write (exact
    up to 53 bits).  A slot holding such a text seeds [count] and [history]
    with that integer: ["7abc"] seeds 7.  The result is [NaN] exactly when,
    after the white space, no digit comes first or right after a sign, as
    for ["abc"]. *)
Theorem C10_parseInt_leading_integer (ws : string) (d : uint) (rest : string) :
  forallb isStrWhiteSpaceChar (list_ascii_of_string ws) = true ->
  d <> Nil ->
  beginsWithDecimalDigit rest = false ->
  (parseInt (ws ++ NilEmpty.string_of_uint d ++ rest)%string
   = signedValue false d
   /\ parseInt (ws ++ "+" ++ NilEmpty.string_of_uint d ++ rest)%string
      = signedValue false d
   /\ parseInt (ws ++ "-" ++ NilEmpty.string_of_uint d ++ rest)%string
      = signedValue true d)
  /\ (forall ls : gmap string string,
      hooks (mount (<[STORAGE_KEY :=
                        (ws ++ NilEmpty.string_of_uint d ++ rest)%string]> ls))
      = mkHooks (signedValue false d) [signedValue false d] (Num 1))
  /\ (forall ls : gmap string string,
      hooks (mount (<[STORAGE_KEY :=
                        (ws ++ "-" ++ NilEmpty.string_of_uint d
                            ++ rest)%string]> ls))
      = mkHooks (signedValue true d) [signedValue true d] (Num 1))
  /\ (parseInt "7abc" = Num 7
      /\ parseInt "-7abc" = Num (-7)
      /\ parseInt "+7abc" = Num 7
      /\ parseInt "  42 apples" = Num 42
      /\ parseInt "-8" = Num (-8)
      /\ parseInt "7.9" = Num 7
      /\ parseInt "abc" = NaN
      /\ parseInt "- 7" = NaN
      /\ parseInt "abc7" = NaN)
  /\ hooks (mount {[ STORAGE_KEY := "7abc" ]})
     = mkHooks (Num 7) [Num 7] (Num 1)
  /\ hooks (mount {[ STORAGE_KEY := "abc" ]}) = mkHooks NaN [NaN] (Num 1)
  /\ (forall t : string, isNaN (parseInt t) = negb (beginsWithInteger t))
  /\ (forall (ls : gmap string string) (t : string),
      isNaN (count (hooks (mount (<[STORAGE_KEY := t]> ls))))
      = negb (beginsWithInteger t)).
Proof.
  intros Hws Hd Hrest.
  pose proof (parseInt_grammar ws d rest Hws Hd Hrest) as (Hnone & Hplus & Hminus).
  assert (forall (ls : gmap string string) (t : string),
    hooks (mount (<[STORAGE_KEY := t]> ls))
    = mkHooks (parseInt t) [parseInt t] (Num 1)) as Hmount.
  { intros ls t. unfold mount, render. simpl.
    unfold initCount, initHistory, getItem. now rewrite lookup_insert_eq. }
  split; [auto |].
  split; [intros ls; now rewrite Hmount, Hnone |].
  split; [intros ls; now rewrite Hmount, Hminus |].
  split; [repeat split |].
  split; [reflexivity |].
  split; [reflexivity |].
  split.
  - intros t. now rewrite parseInt_isNaN, hasLeadingInteger_codes.
  - intros ls t. rewrite Hmount. simpl count.
    now rewrite parseInt_isNaN, hasLeadingInteger_codes.
Qed.

Lemma C10_parseInt_leading_integer_witness :
  forallb isStrWhiteSpaceChar (list_ascii_of_string " ") = true
  /\ D7 Nil <> Nil
  /\ beginsWithDecimalDigit "abc" = false
  /\ (parseInt " 7abc" = Num 7
      /\ parseInt " +7abc" = Num 7
      /\ parseInt " -7abc" = Num (-7)).
Proof.
  assert (forallb isStrWhiteSpaceChar (list_ascii_of_string " ") = true)
    as H1 by reflexivity.
  assert (D7 Nil <> Nil) as H2 by discriminate.
  assert (beginsWithDecimalDigit "abc" = false) as H3 by reflexivity.
  split; [exact H1 | split; [exact H2 | split; [exact H3 |]]].
  exact (proj1 (C10_parseInt_leading_integer " " (D7 Nil) "abc" H1 H2 H3)).
Defined.

(* ===================================================================== *)
(** ** Further properties: sessions, arithmetic, listeners, display *)
(* ===================================================================== *)

Section Sessions.

Lemma hooks_mount (ls : gmap string string) :
  hooks (mount ls) = mkHooks (initCount ls) [initCount ls] (Num 1).
Proof.
  unfold mount, render. simpl. now rewrite initHistory_initCount.
Qed.

Lemma localStorage_mount (ls : gmap string string) :
  localStorage (mount ls) = setItem ls STORAGE_KEY (toString (initCount ls)).
Proof. reflexivity. Qed.

Lemma localStorage_unmount (w : World) :
  localStorage (unmount w) = localStorage w.
Proof. unfold unmount, runCleanup. destruct (cleanup w); reflexivity. Qed.

(** What [toString] prints of a safe integer other than [-0], or of
    [NaN], [parseInt] reads back. *)
Lemma parseInt_toString_restorable (x : number) :
  (isSafeInteger x && negb (Object_is x NegZero)) || isNaN x = true ->
  parseInt (toString x) = x.
Proof.
  destruct x as [z| |[|]|]; try discriminate; [| reflexivity].
  simpl. rewrite orb_false_r, andb_true_r. intros Hz.
  apply parseInt_toString. now apply Z.ltb_lt.
Qed.

End Sessions.

(** X1.  A safe count survives a session.  When the count of a reachable
    world is a safe integer other than [-0], or [NaN], unmounting and
    mounting a new component over the storage left behind restores the same
    [count], with [history] reduced to that one value and [step] back to 1;
    the new mount writes the slot again and leaves the storage exactly as
    it found it. *)
Theorem X1_count_survives_remount
  (ls : gmap string string) (es : list Event) :
  (isSafeInteger (count (hooks (run (mount ls) es)))
   && negb (Object_is (count (hooks (run (mount ls) es))) NegZero))
  || isNaN (count (hooks (run (mount ls) es))) = true ->
  let w := run (mount ls) es in
  let w' := mount (localStorage (unmount w)) in
  hooks w' = mkHooks (count (hooks w)) [count (hooks w)] (Num 1)
  /\ localStorage w' = localStorage w
  /\ setItemCalls w' = 1%nat.
Proof.
  intros Hsafe w w'.
  assert (Inv w) as HI by apply Inv_reachable.
  pose proof (inv_mirror _ HI) as Hm. unfold mirrored in Hm.
  assert (initCount (localStorage w) = count (hooks w)) as Hc.
  { unfold initCount, getItem. rewrite Hm.
    now apply parseInt_toString_restorable. }
  subst w'. rewrite localStorage_unmount, hooks_mount, localStorage_mount, Hc.
  split; [reflexivity |].
  split; [| reflexivity].
  unfold setItem. now apply insert_id.
Qed.

Lemma X1_count_survives_remount_witness :
  (isSafeInteger (count (hooks (run (mount ∅) [Click Increment])))
   && negb (Object_is (count (hooks (run (mount ∅) [Click Increment])))
                      NegZero))
  || isNaN (count (hooks (run (mount ∅) [Click Increment]))) = true
  /\ hooks (mount (localStorage (unmount (run (mount ∅) [Click Increment]))))
     = mkHooks (count (hooks (run (mount ∅) [Click Increment])))
               [count (hooks (run (mount ∅) [Click Increment]))] (Num 1).
Proof.
  assert ((isSafeInteger (count (hooks (run (mount ∅) [Click Increment])))
           && negb (Object_is (count (hooks (run (mount ∅) [Click Increment])))
                              NegZero))
          || isNaN (count (hooks (run (mount ∅) [Click Increment]))) = true)
    as H by (vm_compute; reflexivity).
  split; [exact H |].
  exact (proj1 (X1_count_survives_remount ∅ [Click Increment] H)).
Defined.

Section Arithmetic.

Lemma fold_transition_net (ts : list Transition) (h : Hooks) (c s : Z) :
  count h = Num c ->
  step h = Num s ->
  1 <= s ->
  Z.abs c + s * Z.of_nat (length ts) < 2 ^ 53 ->
  count (fold_left transition ts h) = Num (c + s * net ts)
  /\ step (fold_left transition ts h) = Num s
  /\ length (history (fold_left transition ts h))
     = (length (history h) + length ts)%nat.
Proof.
  revert h c. induction ts as [|t ts IH]; intros h c Hc Hs Hpos Hb.
  - simpl. rewrite Hc, Hs. repeat split; [f_equal; lia | lia].
  - simpl fold_left. simpl length in Hb.
    assert (count (transition h t) = Num (c + s * weight t)) as Hc'.
    { unfold transition, applyDelta. simpl count. rewrite Hc, Hs.
      destruct t; simpl delta.
      - rewrite add_safe by (simpl weight; lia). f_equal. simpl weight. lia.
      - unfold neg. destruct (Z.eqb_spec s 0); [lia |].
        rewrite add_safe by (simpl weight; lia). f_equal. simpl weight. lia. }
    assert (Z.abs (c + s * weight t) + s * Z.of_nat (length ts) < 2 ^ 53)
      as Hb' by (destruct t; simpl weight; lia).
    destruct (IH (transition h t) _ Hc' Hs Hpos Hb') as (-> & -> & ->).
    repeat split.
    + f_equal. simpl net. lia.
    + unfold transition, applyDelta. simpl. rewrite length_app. simpl. lia.
Qed.

End Arithmetic.

(** X2.  The net effect of a run of increments and decrements.  From a
    reachable world whose count is the integer [c] and whose step is [s],
    a sequence of increments and decrements, by button or by arrow key,
    that cannot leave the safe integers ([|c| + s * length < 2^53]) ends
    with [count = c + s * (increments - decrements)], the same step, and
    one more history entry per transition. *)
Theorem X2_net_effect
  (ls : gmap string string) (es : list Event)
  (ts : list (Transition * Trigger)) (c s : Z) :
  count (hooks (run (mount ls) es)) = Num c ->
  step (hooks (run (mount ls) es)) = Num s ->
  Z.abs c + s * Z.of_nat (length ts) < 2 ^ 53 ->
  let w := run (mount ls) es in
  let w' := run w (map eventOf ts) in
  count (hooks w') = Num (c + s * net (map fst ts))
  /\ step (hooks w') = Num s
  /\ length (history (hooks w'))
     = (length (history (hooks w)) + length ts)%nat.
Proof.
  intros Hc Hs Hb w w'. subst w'.
  assert (Inv w) as HI by apply Inv_reachable.
  assert (1 <= s) as Hpos.
  { apply lessEq_1_Num. rewrite <- Hs. apply HI. }
  rewrite hooks_run_transitions by exact HI.
  destruct (fold_transition_net (map fst ts) (hooks w) c s Hc Hs Hpos)
    as (H1 & H2 & H3); [now rewrite length_map |].
  rewrite length_map in H3. auto.
Qed.

Lemma X2_net_effect_witness :
  count (hooks (run (mount ∅) [Change "3"])) = Num 0
  /\ step (hooks (run (mount ∅) [Change "3"])) = Num 3
  /\ Z.abs 0 + 3 * Z.of_nat (length [(Inc, ByButton); (Inc, ByKey);
                                      (Dec, ByButton); (Inc, ByKey)])
     < 2 ^ 53
  /\ count (hooks (run (run (mount ∅) [Change "3"])
                       (map eventOf [(Inc, ByButton); (Inc, ByKey);
                                     (Dec, ByButton); (Inc, ByKey)])))
     = Num 6.
Proof.
  assert (count (hooks (run (mount ∅) [Change "3"])) = Num 0) as H1
    by (vm_compute; reflexivity).
  assert (step (hooks (run (mount ∅) [Change "3"])) = Num 3) as H2
    by (vm_compute; reflexivity).
  assert (Z.abs 0 + 3 * Z.of_nat (length [(Inc, ByButton); (Inc, ByKey);
                                           (Dec, ByButton); (Inc, ByKey)])
          < 2 ^ 53) as H3 by (vm_compute; reflexivity).
  split; [exact H1 | split; [exact H2 | split; [exact H3 |]]].
  exact (proj1 (X2_net_effect ∅ [Change "3"]
                  [(Inc, ByButton); (Inc, ByKey); (Dec, ByButton);
                   (Inc, ByKey)] 0 3 H1 H2 H3)).
Defined.

(** X3.  Reset is idempotent on the whole world: a second click on Reset
    changes neither the state nor the storage nor the listeners, and
    performs no write. *)
Theorem X3_reset_idempotent :
  forall w : World,
    dispatchEvent (dispatchEvent w (Click Reset)) (Click Reset)
    = dispatchEvent w (Click Reset).
Proof.
  intros w. apply dispatchEvent_idle.
  rewrite hooks_dispatchEvent. reflexivity.
Qed.

Section Kinds.

Lemma applyDelta_numericHistory (d : number) (h : Hooks) :
  numericHistory h -> numericHistory (applyDelta d h).
Proof.
  unfold numericHistory, applyDelta. simpl. intros H.
  apply Forall_app. split.
  - destruct (isNaN (add (count h) d)) eqn:E; [now apply Forall_true |].
    apply add_not_NaN in E. rewrite E in H. exact H.
  - apply Forall_singleton. apply orb_negb_r.
Qed.

(** The state one event leaves, in a world that satisfies the invariant. *)
Lemma hooks_dispatchEvent_cases (w : World) (e : Event) :
  Inv w ->
  hooks (dispatchEvent w e) =
  match e with
  | Click Increment => applyDelta (step (hooks w)) (hooks w)
  | Click Decrement => applyDelta (neg (step (hooks w))) (hooks w)
  | Click Reset => reset (hooks w)
  | Change value =>
      if isNaN (parseInt value) then hooks w
      else mkHooks (count (hooks w)) (history (hooks w))
                   (Math_max (Num 1) (parseInt value))
  | KeyDown key =>
      if strictEq key "ArrowUp" then applyDelta (step (hooks w)) (hooks w)
      else if strictEq key "ArrowDown"
           then applyDelta (neg (step (hooks w))) (hooks w)
           else hooks w
  end.
Proof.
  intros HI. destruct e as [[| |]|value|key].
  - rewrite hooks_dispatchEvent. apply flush_decrement.
  - rewrite hooks_dispatchEvent. apply flush_increment.
  - rewrite hooks_dispatchEvent. apply flush_reset.
  - rewrite hooks_dispatchEvent. apply flush_stepChange.
  - now apply hooks_keyDown.
Qed.

Lemma numericHistory_dispatchEvent (w : World) (e : Event) :
  Inv w -> numericHistory (hooks w) ->
  numericHistory (hooks (dispatchEvent w e)).
Proof.
  intros HI Hh. rewrite (hooks_dispatchEvent_cases w e HI).
  destruct e as [[| |]|value|key]; try now apply applyDelta_numericHistory.
  - repeat constructor.
  - destruct (isNaN (parseInt value)); exact Hh.
  - destruct (strictEq key "ArrowUp");
      [now apply applyDelta_numericHistory |].
    destruct (strictEq key "ArrowDown");
      [now apply applyDelta_numericHistory | exact Hh].
Qed.

Lemma numericHistory_run (w : World) (es : list Event) :
  Inv w -> numericHistory (hooks w) -> numericHistory (hooks (run w es)).
Proof.
  revert w. induction es as [|e es IH]; intros w HI Hh; [exact Hh |].
  simpl. apply IH;
    [now apply Inv_dispatchEvent | now apply numericHistory_dispatchEvent].
Qed.

Lemma count_NaN_dispatchEvent (w : World) (e : Event) :
  Inv w -> isReset e = false -> count (hooks w) = NaN ->
  count (hooks (dispatchEvent w e)) = NaN.
Proof.
  intros HI Hr Hc. rewrite (hooks_dispatchEvent_cases w e HI).
  destruct e as [[| |]|value|key]; try discriminate Hr;
    unfold applyDelta; simpl; try now rewrite Hc.
  - destruct (isNaN (parseInt value)); exact Hc.
  - destruct (strictEq key "ArrowUp"); [simpl; now rewrite Hc |].
    destruct (strictEq key "ArrowDown"); [simpl; now rewrite Hc | exact Hc].
Qed.

Lemma count_same_no_write (w : World) (e : Event) :
  count (hooks (dispatchEvent w e)) = count (hooks w) ->
  setItemCalls (dispatchEvent w e) = setItemCalls w.
Proof.
  intros Hc. rewrite hooks_dispatchEvent in Hc. rewrite dispatchEvent_commit.
  destruct (commit_storage (hooks w) (flush (handlers w e) (hooks w)) w)
    as [_ ->].
  now rewrite Hc, Object_is_refl.
Qed.

Lemma NaN_run (w : World) (es : list Event) :
  Inv w -> forallb (fun e => negb (isReset e)) es = true ->
  count (hooks w) = NaN ->
  count (hooks (run w es)) = NaN
  /\ setItemCalls (run w es) = setItemCalls w.
Proof.
  revert w. induction es as [|e es IH]; intros w HI Hes Hc; [auto |].
  simpl in Hes. apply andb_prop in Hes as [He Hes].
  apply negb_true_iff in He.
  pose proof (count_NaN_dispatchEvent w e HI He Hc) as Hc'.
  simpl. destruct (IH (dispatchEvent w e)) as [-> ->];
    [now apply Inv_dispatchEvent | exact Hes | exact Hc' |].
  split; [reflexivity |]. apply count_same_no_write. congruence.
Qed.

End Kinds.

(** X4.  A count that is not a number stays so until a reset.  From a
    reachable world whose [count] is [NaN], no run of events without a
    click on Reset gives it a numeric value or writes to the storage, whose
    slot keeps reading ["NaN"]; a click on Reset then gives 0. *)
Theorem X4_NaN_until_reset
  (ls : gmap string string) (es es' : list Event) :
  count (hooks (run (mount ls) es)) = NaN ->
  forallb (fun e => negb (isReset e)) es' = true ->
  let w := run (mount ls) es in
  let w' := run w es' in
  count (hooks w') = NaN
  /\ localStorage w' !! STORAGE_KEY = Some "NaN"
  /\ setItemCalls w' = setItemCalls w
  /\ count (hooks (dispatchEvent w' (Click Reset))) = Num 0.
Proof.
  intros Hc Hes w w'.
  assert (Inv w) as HI by apply Inv_reachable.
  destruct (NaN_run w es' HI Hes Hc) as [Hc' Hw].
  assert (Inv w') as HI' by now apply Inv_run.
  split; [exact Hc' |].
  split.
  { pose proof (inv_mirror _ HI') as Hm. unfold mirrored in Hm.
    fold w' in Hc'. now rewrite Hc' in Hm. }
  split; [exact Hw |].
  rewrite hooks_dispatchEvent. reflexivity.
Qed.

Lemma X4_NaN_until_reset_witness :
  count (hooks (run (mount {[ STORAGE_KEY := "abc" ]}) [])) = NaN
  /\ forallb (fun e => negb (isReset e))
             [Click Increment; Change "4"; KeyDown "ArrowDown"] = true
  /\ count (hooks (run (run (mount {[ STORAGE_KEY := "abc" ]}) [])
                       [Click Increment; Change "4"; KeyDown "ArrowDown"]))
     = NaN.
Proof.
  assert (count (hooks (run (mount {[ STORAGE_KEY := "abc" ]}) [])) = NaN)
    as H1 by (vm_compute; reflexivity).
  assert (forallb (fun e => negb (isReset e))
            [Click Increment; Change "4"; KeyDown "ArrowDown"] = true)
    as H2 by reflexivity.
  split; [exact H1 | split; [exact H2 |]].
  exact (proj1 (X4_NaN_until_reset {[ STORAGE_KEY := "abc" ]} []
                  [Click Increment; Change "4"; KeyDown "ArrowDown"] H1 H2)).
Defined.

(** X5.  No stray [NaN] in the history.  In every reachable world, unless
    [count] itself is [NaN], no entry of [history] is [NaN]: a count that
    is a number has only numbers behind it. *)
Theorem X5_history_one_kind :
  forall (ls : gmap string string) (es : list Event),
    let w := run (mount ls) es in
    Forall (fun x => isNaN (count (hooks w)) || negb (isNaN x) = true)
           (history (hooks w)).
Proof.
  intros ls es w. apply numericHistory_run; [apply Inv_mount |].
  unfold numericHistory. rewrite hooks_mount. simpl.
  apply Forall_singleton. apply orb_negb_r.
Qed.

(** X6.  Because the step is at least 1, a transition moves a safe count
    the right way.  From a reachable world whose count is the integer [c]
    and whose step is [s], with [|c| + s < 2^53], an increment gives
    [c + s], strictly larger, and a decrement [c - s], strictly smaller, by
    button or by key, and the event writes the slot exactly once. *)
Theorem X6_transitions_strict
  (ls : gmap string string) (es : list Event)
  (t : Transition * Trigger) (c s : Z) :
  count (hooks (run (mount ls) es)) = Num c ->
  step (hooks (run (mount ls) es)) = Num s ->
  Z.abs c + s < 2 ^ 53 ->
  let w := run (mount ls) es in
  let w' := dispatchEvent w (eventOf t) in
  count (hooks w') = Num (c + s * weight (fst t))
  /\ match fst t with
     | Inc => c < c + s * weight (fst t)
     | Dec => c + s * weight (fst t) < c
     end
  /\ setItemCalls w' = S (setItemCalls w).
Proof.
  intros Hc Hs Hb w w'.
  assert (Inv w) as HI by apply Inv_reachable.
  assert (1 <= s) as Hpos.
  { apply lessEq_1_Num. rewrite <- Hs. apply HI. }
  assert (hooks w' = transition (hooks w) (fst t)) as Hw'
    by (subst w'; now apply hooks_eventOf).
  assert (count (hooks w') = Num (c + s * weight (fst t))) as Hc'.
  { rewrite Hw'.
    destruct (fold_transition_net [fst t] (hooks w) c s Hc Hs Hpos)
      as (H1 & _); [simpl length; lia |].
    change (fold_left transition [fst t] (hooks w))
      with (transition (hooks w) (fst t)) in H1.
    rewrite H1. f_equal. unfold net. simpl fold_right. lia. }
  split; [exact Hc' |].
  split; [destruct (fst t); simpl weight; lia |].
  assert (setItemCalls w'
          = if Object_is (count (hooks w')) (count (hooks w))
            then setItemCalls w else S (setItemCalls w)) as ->.
  { subst w'. rewrite hooks_dispatchEvent, dispatchEvent_commit.
    apply commit_storage. }
  assert (Object_is (count (hooks w')) (count (hooks w)) = false) as ->;
    [| reflexivity].
  apply Object_is_false. change (count (hooks w) = Num c) in Hc.
  rewrite Hc', Hc.
  destruct (fst t); simpl weight; intros [= E]; lia.
Qed.

Lemma X6_transitions_strict_witness :
  count (hooks (run (mount ∅) [Change "3"])) = Num 0
  /\ step (hooks (run (mount ∅) [Change "3"])) = Num 3
  /\ Z.abs 0 + 3 < 2 ^ 53
  /\ count (hooks (dispatchEvent (run (mount ∅) [Change "3"])
                                 (eventOf (Dec, ByKey))))
     = Num (-3).
Proof.
  assert (count (hooks (run (mount ∅) [Change "3"])) = Num 0) as H1
    by (vm_compute; reflexivity).
  assert (step (hooks (run (mount ∅) [Change "3"])) = Num 3) as H2
    by (vm_compute; reflexivity).
  assert (Z.abs 0 + 3 < 2 ^ 53) as H3 by (vm_compute; reflexivity).
  split; [exact H1 | split; [exact H2 | split; [exact H3 |]]].
  exact (proj1 (X6_transitions_strict ∅ [Change "3"] (Dec, ByKey) 0 3
                  H1 H2 H3)).
Defined.

Section Listeners.

(** The listeners and the allocation counter after a commit, when one
    listener was registered before. *)
Lemma commit_listeners_exact (next : Hooks) (w : World) :
  oneListener w ->
  let w' := commit (Some (hooks w)) next w in
  (listeners w', cleanup w', nextRef w')
  = if Object_is (step next) (step (hooks w))
    then (listeners w, cleanup w, nextRef w)
    else ([Closure (nextRef w) (step next)],
          Some (Closure (nextRef w) (step next)), S (nextRef w)).
Proof.
  intros (l & Hl & Hc & He).
  unfold commit, depsChanged, areHookInputsEqual. simpl.
  destruct (Object_is (step next) (step (hooks w))); simpl.
  - destruct (Object_is (count next) (count (hooks w))); reflexivity.
  - unfold runCleanup. simpl. rewrite Hc. simpl. rewrite Hl.
    rewrite removeEventListener_self.
    destruct (Object_is (count next) (count (hooks w))); reflexivity.
Qed.

End Listeners.

(** X7.  The keyboard listener is replaced exactly when the step changes.
    In every reachable world, an event that leaves [step] as it was leaves
    the registered listener, the pending cleanup and the allocation counter
    untouched; an event that changes [step] leaves a single, freshly
    created listener that closes over the new step. *)
Theorem X7_listener_replaced_on_step_change :
  forall (ls : gmap string string) (es : list Event) (e : Event),
    let w := run (mount ls) es in
    let w' := dispatchEvent w e in
    (listeners w', cleanup w', nextRef w')
    = if Object_is (step (hooks w')) (step (hooks w))
      then (listeners w, cleanup w, nextRef w)
      else ([Closure (nextRef w) (step (hooks w'))],
            Some (Closure (nextRef w) (step (hooks w'))), S (nextRef w)).
Proof.
  intros ls es e w w'. subst w'.
  rewrite hooks_dispatchEvent, dispatchEvent_commit.
  apply commit_listeners_exact. apply Inv_reachable.
Qed.

Section Display.

Lemma length_dispatchEvent (w : World) (e : Event) :
  Inv w ->
  length (history (hooks (dispatchEvent w e)))
  = if isReset e then 1%nat
    else if isTransition e then S (length (history (hooks w)))
         else length (history (hooks w)).
Proof.
  intros HI. rewrite (hooks_dispatchEvent_cases w e HI).
  assert (forall d, length (history (applyDelta d (hooks w)))
                    = S (length (history (hooks w)))) as Happ.
  { intros d. unfold applyDelta. simpl. rewrite length_app. simpl. lia. }
  destruct e as [[| |]|value|key]; simpl; try apply Happ; try reflexivity.
  - destruct (parseInt value); reflexivity.
  - destruct (strictEq key "ArrowUp"); [apply Happ |].
    destruct (strictEq key "ArrowDown"); [apply Happ | reflexivity].
Qed.

Lemma length_run (w : World) (es : list Event) (n : nat) :
  Inv w ->
  length (history (hooks w)) = S n ->
  length (history (hooks (run w es))) = S (changesSince n es).
Proof.
  revert w n. induction es as [|e es IH]; intros w n HI Hn; [exact Hn |].
  simpl. apply IH; [now apply Inv_dispatchEvent |].
  rewrite length_dispatchEvent by exact HI.
  destruct (isReset e); [reflexivity |].
  destruct (isTransition e); now rewrite Hn.
Qed.

Lemma append_assoc (a b c : string) :
  ((a ++ b) ++ c = a ++ (b ++ c))%string.
Proof.
  induction a as [|x a IH]; [reflexivity |].
  change (String x ((a ++ b) ++ c) = String x (a ++ (b ++ c)))%string.
  now rewrite IH.
Qed.

(** [join] ends with its last element. *)
Lemma join_snoc (sep : string) (xs : list number) (x : number) :
  exists prefix, join sep (xs ++ [x]) = (prefix ++ toString x)%string.
Proof.
  induction xs as [|y ys IH].
  - exists "". reflexivity.
  - destruct IH as (prefix & Hp).
    exists (toString y ++ sep ++ prefix)%string.
    change ((y :: ys) ++ [x]) with (y :: (ys ++ [x])).
    simpl join. rewrite Hp.
    destruct (ys ++ [x]) eqn:E; [now destruct ys |].
    now rewrite !append_assoc.
Qed.

End Display.

(** X8.  The change counter counts the transitions since the last mount or
    reset.  In every reachable world [history] has one entry more than the
    number of increments and decrements, by button or arrow key, since the
    most recent mount or click on Reset, so the displayed
    [history.length - 1] is that number and is never negative. *)
Theorem X8_total_changes :
  forall (ls : gmap string string) (es : list Event),
    let w := run (mount ls) es in
    length (history (hooks w)) = S (changesSince 0 es)
    /\ historyCount (present (hooks w))
       = ("Total changes: "
            ++ toString (Num (Z.of_nat (changesSince 0 es))))%string.
Proof.
  intros ls es w.
  assert (length (history (hooks w)) = S (changesSince 0 es)) as Hlen.
  { apply length_run; [apply Inv_mount | now rewrite hooks_mount]. }
  split; [exact Hlen |].
  unfold present. cbn [historyCount]. rewrite Hlen.
  replace (Z.of_nat (S (changesSince 0 es)) - 1)
    with (Z.of_nat (changesSince 0 es)) by lia.
  reflexivity.
Qed.

(** X9.  The history paragraph.  In every reachable world [history] is
    not empty, so the paragraph is never the placeholder: it lists the
    entries joined by a comma and a space, and its text ends with the
    current count. *)
Theorem X9_history_paragraph :
  forall (ls : gmap string string) (es : list Event),
    let w := run (mount ls) es in
    historyList (present (hooks w))
    = ("Previous counts: " ++ join ", " (history (hooks w)))%string
    /\ historyList (present (hooks w)) <> "No history yet"
    /\ exists prefix,
         historyList (present (hooks w))
         = (prefix ++ toString (count (hooks w)))%string.
Proof.
  intros ls es w.
  assert (Inv w) as HI by apply Inv_reachable.
  pose proof (inv_history _ HI) as Hh. unfold historyEndsAtCount in Hh.
  apply last_Some in Hh as (xs & Hxs).
  assert (historyList (present (hooks w))
          = ("Previous counts: " ++ join ", " (history (hooks w)))%string)
    as Hlist.
  { unfold present. simpl historyList. rewrite Hxs, length_app. simpl.
    replace (length xs + 1)%nat with (S (length xs)) by lia. reflexivity. }
  split; [exact Hlist |].
  split; [rewrite Hlist; discriminate |].
  rewrite Hlist, Hxs.
  destruct (join_snoc ", " xs (count (hooks w))) as (prefix & ->).
  exists ("Previous counts: " ++ prefix)%string.
  now rewrite append_assoc.
Qed.

(* ===================================================================== *)
(** ** The edges of the number type, on concrete runs *)
(* ===================================================================== *)

Section Edges.

(** At [2^53] an increment by 1 is lost to rounding, and nothing is
    written. *)
Example increment_at_2_53 :
  let w := run (mount {[ STORAGE_KEY := "9007199254740992" ]})
               [Click Increment] in
  hooks w = mkHooks (Num 9007199254740992)
                    [Num 9007199254740992; Num 9007199254740992] (Num 1)
  /\ setItemCalls w = 1%nat.
Proof. vm_compute. split; reflexivity. Qed.

(** A slot holding ["-0"] seeds [-0]; the reset to [+0] is a change. *)
Example reset_from_negative_zero :
  let w0 := mount {[ STORAGE_KEY := "-0" ]} in
  let w := run w0 [Click Reset] in
  hooks w0 = mkHooks NegZero [NegZero] (Num 1)
  /\ hooks w = mkHooks (Num 0) [Num 0] (Num 1)
  /\ setItemCalls w = 2%nat.
Proof. vm_compute. repeat split; reflexivity. Qed.

(** A step too long for a double is [Infinity]; an increment then a
    decrement leave [NaN]. *)
Example infinite_step :
  hooks (run (mount ∅) [Change (decimal (10 ^ 309)); Click Increment;
                        Click Decrement])
  = mkHooks NaN [Num 0; Infinity false; NaN] (Infinity false).
Proof. vm_compute. reflexivity. Qed.

(** From [10^21] on the slot is written in exponent notation, which the
    next mount reads as its leading digit. *)
Example exponent_not_restored :
  let w := mount {[ STORAGE_KEY := "1000000000000000000000" ]} in
  count (hooks w) = Num (10 ^ 21)
  /\ localStorage w !! STORAGE_KEY = Some "1e+21"
  /\ count (hooks (mount (localStorage w))) = Num 1.
Proof. vm_compute. repeat split; reflexivity. Qed.

End Edges.
